(** * Tenant registry of the marketplace backend

    A shallow embedding of the tenant module of the backend
    ([modules/tenant/service.ts]), of the per-request schema binding
    ([api/middlewares/tenant.ts]), of the routes that list, create, read,
    patch and delete tenants ([api/tenants], [api/admin/tenants],
    [api/admin/tenants/:entityId]) and of the single sign-on
    ([api/auth/beezy-sso]), together with the properties the specification
    states about them and further properties of the code.

    The code talks to PostgreSQL through [db.raw].  The database is modelled
    as the [public.tenants] table declared by [initializeTenantSystem]
    (column widths, primary key, unique keys, defaults), the set of
    namespaces created besides [public], and the session's [search_path].
    Every operation is a computation over the connection that may throw.

    The statements are modelled by what they are written to do.  That is what
    the server does within bounds ([modelled]: values it takes as parameters,
    names that can be pasted between double quotes); the properties that
    depend on the bounds carry them as hypotheses. *)

From stdpp Require Import base decidable option list strings pretty gmap sorting.
From Stdlib Require Import Ascii ZArith Lia.

Local Open Scope Z_scope.

(** ** Strings *)

(** [entityId.replace(/-/g, '_')]: every hyphen becomes an underscore. *)
Fixpoint replace_hyphens (s : string) : string :=
  match s with
  | EmptyString => EmptyString
  | String c s' =>
      String (if decide (c = "-"%char) then "_"%char else c) (replace_hyphens s')
  end.

(** [`tenant_${entityId}`], in [createTenant] and in the routes that create a
    tenant. *)
Definition derive_id (entityId : string) : string :=
  "tenant_" +:+ entityId.

(** [`tenant_entity_${entityId.replace(/-/g, '_')}`], in the same places. *)
Definition derive_schemaName (entityId : string) : string :=
  "tenant_entity_" +:+ replace_hyphens entityId.

Fixpoint string_take (n : nat) (s : string) : string :=
  match n, s with
  | S n', String c s' => String c (string_take n' s')
  | _, _ => EmptyString
  end.

Fixpoint string_drop (n : nat) (s : string) : string :=
  match n, s with
  | S n', String _ s' => string_drop n' s'
  | _, _ => s
  end.

Fixpoint all_spaces (s : string) : bool :=
  match s with
  | EmptyString => true
  | String c s' => bool_decide (c = " "%char) && all_spaces s'
  end.

(** Storing into a [VARCHAR(n)] column: a value of at most [n] characters is
    stored as it is, a longer one whose excess is only spaces is cut to [n]
    characters, any other longer value is refused.  The count here is of
    bytes: it is the count of characters for an ASCII value, and a value of
    at most [n] bytes has at most [n] characters whatever it holds. *)
Definition varchar (n : nat) (s : string) : option string :=
  if decide (String.length s ≤ n)%nat then Some s
  else if all_spaces (string_drop n s) then Some (string_take n s)
  else None.

(** A JavaScript string used as a condition: the empty string is falsy;
    [None] stands for [undefined]. *)
Definition truthy (v : option string) : bool :=
  match v with
  | Some s => negb (bool_decide (s = ""))
  | None => false
  end.

(** [a || b] on optional strings. *)
Definition js_or (a b : option string) : option string :=
  if truthy a then a else b.

(** ** Data model *)

(** A row of [public.tenants], with the column names of the table. *)
Module Row.
Record t : Type := mk {
    id : string;
    entity_id : string;
    entity_name : string;
    schema_name : string;
    status : string;
    created_at : Z;
    updated_at : Z
}.
End Row.

(** [interface TenantData].  [status] holds whatever the column holds: the
    service copies [row.status] without checking it. *)
Module TenantData.
Record t : Type := mk {
    id : string;
    entityId : string;
    entityName : string;
    schemaName : string;
    status : string;
    createdAt : Z;
    updatedAt : Z
}.
End TenantData.

#[global] Instance Row_eq_dec : EqDecision Row.t.
Proof. solve_decision. Defined.

#[global] Instance TenantData_eq_dec : EqDecision TenantData.t.
Proof. solve_decision. Defined.

(** The object literal every lookup builds from a row. *)
Definition toTenantData (row : Row.t) : TenantData.t :=
  {| TenantData.id := Row.id row;
     TenantData.entityId := Row.entity_id row;
     TenantData.entityName := Row.entity_name row;
     TenantData.schemaName := Row.schema_name row;
     TenantData.status := Row.status row;
     TenantData.createdAt := Row.created_at row;
     TenantData.updatedAt := Row.updated_at row |}.

(** [interface CreateTenantInput] *)
Module CreateTenantInput.
Record t : Type := mk { entityId : string; entityName : string }.
End CreateTenantInput.

(** The [status] argument of [updateTenantStatus]: ['active' | 'inactive']. *)
Inductive StatusArg : Type := active | inactive.

Definition status_text (s : StatusArg) : string :=
  match s with active => "active" | inactive => "inactive" end.

(** ** The database *)

(** The database once [initializeTenantSystem] has run: the rows of
    [public.tenants] in storage order, the namespaces that exist besides
    [public], and the [search_path] of the session. *)
Record Db : Type := mkDb {
  tenants : list Row.t;
  schemas : gset string;
  search_path : list string
}.

Definition with_tenants (rows : list Row.t) (db : Db) : Db :=
  {| tenants := rows; schemas := schemas db; search_path := search_path db |}.

Definition with_schemas (s : gset string) (db : Db) : Db :=
  {| tenants := tenants db; schemas := s; search_path := search_path db |}.

Definition with_search_path (p : list string) (db : Db) : Db :=
  {| tenants := tenants db; schemas := schemas db; search_path := p |}.

(** The statements the code issues through [db.raw], with their bindings. *)
Inductive Stmt : Type :=
  | CREATE_TABLE_tenants
      (* CREATE TABLE IF NOT EXISTS public.tenants (...); CREATE INDEX IF NOT EXISTS ... *)
  | CREATE_SCHEMA (name : string)
      (* CREATE SCHEMA IF NOT EXISTS "name" *)
  | INSERT_tenant (on_conflict_update : bool) (id entity_id entity_name schema_name : string)
      (* INSERT INTO public.tenants (id, entity_id, entity_name, schema_name, status)
         VALUES (?, ?, ?, ?, 'active')
         [ON CONFLICT (entity_id) DO UPDATE SET
            entity_name = EXCLUDED.entity_name, updated_at = NOW()] *)
  | SELECT_by_entity_id (entity_id : string)
      (* SELECT * FROM public.tenants WHERE entity_id = ? *)
  | SELECT_active_by_entity_id (entity_id : string)
      (* SELECT * FROM public.tenants WHERE entity_id = ? AND status = 'active' *)
  | SELECT_by_schema_name (schema_name : string)
      (* SELECT * FROM public.tenants WHERE schema_name = ? *)
  | SELECT_all_newest_first
      (* SELECT * FROM public.tenants ORDER BY created_at DESC *)
  | UPDATE_tenant (entity_name status : option string) (entity_id : string)
      (* UPDATE public.tenants SET [entity_name = ?,] [status = ?,] updated_at = NOW()
         WHERE entity_id = ? *)
  | DROP_SCHEMA (name : string)
      (* DROP SCHEMA IF EXISTS "name" CASCADE *)
  | DELETE_by_entity_id (entity_id : string)
      (* DELETE FROM public.tenants WHERE entity_id = ? *)
  | SET_search_path (path : list string).
      (* SET search_path TO ... *)

#[global] Instance Stmt_eq_dec : EqDecision Stmt.
Proof. solve_decision. Defined.

(** What can be thrown: a statement refused by the database, or a property
    read from [undefined]. *)
Inductive Exception : Type :=
  | unique_violation (constraint : string)
  | value_too_long (width : nat)
  | type_error.

#[global] Instance Exception_eq_dec : EqDecision Exception.
Proof. solve_decision. Defined.

Inductive Result (A : Type) : Type :=
  | Ok (a : A)
  | Throw (e : Exception).
Arguments Ok {A} a.
Arguments Throw {A} e.

(** [ORDER BY created_at DESC]: a row comes before every row created earlier. *)
Definition newest_first (r1 r2 : Row.t) : Prop :=
  Row.created_at r2 ≤ Row.created_at r1.

#[global] Instance newest_first_dec : RelDecision newest_first.
Proof. intros r1 r2. unfold newest_first. apply _. Defined.

Definition has_entity_id (e : string) (r : Row.t) : bool :=
  bool_decide (Row.entity_id r = e).

Definition has_schema_name (s : string) (r : Row.t) : bool :=
  bool_decide (Row.schema_name r = s).

Definition has_id (i : string) (r : Row.t) : bool :=
  bool_decide (Row.id r = i).

Definition is_active (r : Row.t) : bool :=
  bool_decide (Row.status r = "active").

(** The [SET] clause of an [UPDATE] applied to one row. *)
Definition set_columns (entity_name status : option string) (now : Z) (r : Row.t) : Row.t :=
  {| Row.id := Row.id r;
     Row.entity_id := Row.entity_id r;
     Row.entity_name := default (Row.entity_name r) entity_name;
     Row.schema_name := Row.schema_name r;
     Row.status := default (Row.status r) status;
     Row.created_at := Row.created_at r;
     Row.updated_at := now |}.

(** [UPDATE ... WHERE entity_id = e]. *)
Definition update_where (e : string) (f : Row.t → Row.t) (rows : list Row.t) : list Row.t :=
  (λ r, if has_entity_id e r then f r else r) <$> rows.

(** A value bound to an optional assignment of a [VARCHAR(n)] column:
    [None] when the value does not fit, [Some None] when nothing is assigned. *)
Definition varchar_opt (n : nat) (v : option string) : option (option string) :=
  match v with
  | None => Some None
  | Some s => Some <$> varchar n s
  end.

(** One statement run at server time [now] ([NOW()]): the rows it returns and
    the database afterwards, or the error it is refused with.  An [INSERT]
    first brings its values to the width of the columns, then, with
    [ON CONFLICT (entity_id)], turns a clash on [entity_id] into the update of
    the row that holds it, and otherwise is refused by the first key that is
    taken; [created_at] and [updated_at] default to [NOW()].  An [UPDATE] or
    [DELETE] touches every row with the [entity_id], a [SELECT] returns the
    matching rows in storage order.

    This is what the server does within bounds, spelled out with [modelled]
    below: a bound value holds no U+0000, which the server refuses; a name
    the code pastes between double quotes holds no double quote, with which
    the text sent is no longer this statement, and is neither empty nor cut
    by the server.  Beyond them [exec] still answers, and no property is
    read off it there. *)
Definition exec (now : Z) (stmt : Stmt) (db : Db) : Result (list Row.t * Db) :=
  match stmt with
  | CREATE_TABLE_tenants => Ok ([], db)
  | CREATE_SCHEMA name => Ok ([], with_schemas (schemas db ∪ {[ name ]}) db)
  | INSERT_tenant upsert i e n s =>
      match varchar 255 i, varchar 255 e, varchar 255 n, varchar 255 s with
      | Some i', Some e', Some n', Some s' =>
          if upsert && existsb (has_entity_id e') (tenants db) then
            Ok ([], with_tenants
                      (update_where e' (set_columns (Some n') None now) (tenants db)) db)
          else if existsb (has_id i') (tenants db) then
            Throw (unique_violation "tenants_pkey")
          else if existsb (has_entity_id e') (tenants db) then
            Throw (unique_violation "tenants_entity_id_key")
          else if existsb (has_schema_name s') (tenants db) then
            Throw (unique_violation "tenants_schema_name_key")
          else
            Ok ([], with_tenants
                      (tenants db ++
                       [ {| Row.id := i'; Row.entity_id := e'; Row.entity_name := n';
                            Row.schema_name := s'; Row.status := "active";
                            Row.created_at := now; Row.updated_at := now |} ]) db)
      | _, _, _, _ => Throw (value_too_long 255)
      end
  | SELECT_by_entity_id e => Ok (filter (λ r, has_entity_id e r) (tenants db), db)
  | SELECT_active_by_entity_id e =>
      Ok (filter (λ r, has_entity_id e r && is_active r) (tenants db), db)
  | SELECT_by_schema_name s => Ok (filter (λ r, has_schema_name s r) (tenants db), db)
  | SELECT_all_newest_first => Ok (merge_sort newest_first (tenants db), db)
  | UPDATE_tenant n st e =>
      match varchar_opt 255 n, varchar_opt 50 st with
      | Some n', Some st' =>
          Ok ([], with_tenants (update_where e (set_columns n' st' now) (tenants db)) db)
      | None, _ => Throw (value_too_long 255)
      | _, None => Throw (value_too_long 50)
      end
  | DROP_SCHEMA name => Ok ([], with_schemas (schemas db ∖ {[ name ]}) db)
  | DELETE_by_entity_id e =>
      Ok ([], with_tenants (filter (λ r, negb (has_entity_id e r)) (tenants db)) db)
  | SET_search_path path => Ok ([], with_search_path path db)
  end.

(** ** Computations over the connection *)

(** The connection [__pg_connection__]: the database behind it and, for the
    order of the statements, the journal of what was issued through it. *)
Record Conn : Type := mkConn {
  store : Db;
  issued : list Stmt
}.

(** An [async] function run at server time [now], the value of [NOW()] (no
    function issues more than one statement that reads it): it returns or
    throws, and leaves the connection in a new state either way, every
    statement being committed on its own. *)
Definition M (A : Type) : Type := Z → Conn → Result A * Conn.

Definition ret {A} (a : A) : M A := λ _ c, (Ok a, c).

Definition throw {A} (e : Exception) : M A := λ _ c, (Throw e, c).

Definition bind {A B} (m : M A) (k : A → M B) : M B :=
  λ now c,
    match m now c with
    | (Ok a, c') => k a now c'
    | (Throw e, c') => (Throw e, c')
    end.

(** [try { m } catch (error) { h error }] *)
Definition try_catch {A} (m : M A) (h : Exception → M A) : M A :=
  λ now c,
    match m now c with
    | (Ok a, c') => (Ok a, c')
    | (Throw e, c') => h e now c'
    end.

Declare Scope M_scope.
Delimit Scope M_scope with M.
Notation "x <- 'await' m ;; k" := (bind m (λ x, k))
  (at level 100, m at next level, right associativity) : M_scope.
Notation "'await' m ;; k" := (bind m (λ _, k))
  (at level 100, m at next level, right associativity) : M_scope.
Local Open Scope M_scope.

(** The connection once [stmt] went through it and left the database [db]. *)
Definition sent (stmt : Stmt) (db : Db) (c : Conn) : Conn :=
  {| store := db; issued := issued c ++ [stmt] |}.

(** [db.raw(sql, bindings)]: [result.rows] of the statement. *)
Definition raw (stmt : Stmt) : M (list Row.t) :=
  λ now c,
    match exec now stmt (store c) with
    | Ok (rows, db') => (Ok rows, sent stmt db' c)
    | Throw e => (Throw e, sent stmt (store c) c)
    end.

(** ** [TenantModuleService] *)

Definition initializeTenantSystem : M unit :=
  await raw CREATE_TABLE_tenants ;;
  ret ().

(** [null] is [None]. *)
Definition getTenantByEntityId (entityId : string) : M (option TenantData.t) :=
  result <- await raw (SELECT_by_entity_id entityId) ;;
  match result with
  | [] => ret None
  | row :: _ => ret (Some (toTenantData row))
  end.

Definition getTenantBySchemaName (schemaName : string) : M (option TenantData.t) :=
  result <- await raw (SELECT_by_schema_name schemaName) ;;
  match result with
  | [] => ret None
  | row :: _ => ret (Some (toTenantData row))
  end.

Definition createTenant (input : CreateTenantInput.t) : M (option TenantData.t) :=
  let entityId := CreateTenantInput.entityId input in
  let entityName := CreateTenantInput.entityName input in
  let id := derive_id entityId in
  let schemaName := derive_schemaName entityId in
  existing <- await getTenantByEntityId entityId ;;
  match existing with
  | Some t => ret (Some t)
  | None =>
      await raw (CREATE_SCHEMA schemaName) ;;
      await raw (INSERT_tenant true id entityId entityName schemaName) ;;
      getTenantByEntityId entityId
  end.

Definition listTenants : M (list TenantData.t) :=
  result <- await raw SELECT_all_newest_first ;;
  ret (toTenantData <$> result).

Definition updateTenantStatus (entityId : string) (status : StatusArg)
  : M (option TenantData.t) :=
  await raw (UPDATE_tenant None (Some (status_text status)) entityId) ;;
  getTenantByEntityId entityId.

Definition deleteTenant (entityId : string) : M bool :=
  tenant <- await getTenantByEntityId entityId ;;
  match tenant with
  | None => ret false
  | Some t =>
      await raw (DROP_SCHEMA (TenantData.schemaName t)) ;;
      await raw (DELETE_by_entity_id entityId) ;;
      ret true
  end.

Definition switchToTenantSchema (schemaName : string) : M unit :=
  await raw (SET_search_path [schemaName; "public"]) ;;
  ret ().

Definition resetToPublicSchema : M unit :=
  await raw (SET_search_path ["public"]) ;;
  ret ().

(** ** [tenantMiddleware] *)

(** What the middleware reads from the request: [req.headers['x-tenant-id']]
    and [req.cookies?.tenant_id]. *)
Module Request.
Record t : Type := mk {
    x_tenant_id : option string;
    tenant_id : option string
}.
End Request.

(** [req.tenant] *)
Module ReqTenant.
Record t : Type := mk {
    id : string;
    entityId : string;
    entityName : string;
    schemaName : string
}.
End ReqTenant.

(** What the middleware leaves behind besides the statements it issued:
    [req.tenant], the number of calls of [next()], and the statements of the
    handlers registered with [res.on('finish', ...)]. *)
Record Binding : Type := mkBinding {
  req_tenant : option ReqTenant.t;
  next_calls : nat;
  on_finish : list Stmt
}.

(** The request goes on without a tenant context. *)
Definition unbound : Binding :=
  {| req_tenant := None; next_calls := 1; on_finish := [] |}.

Definition tenantMiddleware (req : Request.t) : M Binding :=
  let tenantId := js_or (Request.x_tenant_id req) (Request.tenant_id req) in
  if negb (truthy tenantId) then ret unbound
  else
    try_catch
      (result <- await raw (SELECT_active_by_entity_id (default "" tenantId)) ;;
       match result with
       | [] => ret unbound
       | tenant :: _ =>
           let t := {| ReqTenant.id := Row.id tenant;
                       ReqTenant.entityId := Row.entity_id tenant;
                       ReqTenant.entityName := Row.entity_name tenant;
                       ReqTenant.schemaName := Row.schema_name tenant |} in
           (* [req.tenant] is assigned before the switch: a failure of the
              switch reaches the handler with the context already set *)
           try_catch
             (await raw (SET_search_path [Row.schema_name tenant; "public"]) ;;
              ret {| req_tenant := Some t; next_calls := 1;
                     on_finish := [SET_search_path ["public"]] |})
             (λ _, ret {| req_tenant := Some t; next_calls := 1; on_finish := [] |})
       end)
      (λ _, ret unbound).

(** ** [PATCH /admin/tenants/:entityId] *)

(** [req.body]: a field that is absent is [None]. *)
Module PatchBody.
Record t : Type := mk {
    entityName : option string;
    status : option string
}.
End PatchBody.

(** The tenant as [POST /tenants] reports it: without the timestamps. *)
Module TenantSummary.
Record t : Type := mk {
    id : string;
    entityId : string;
    entityName : string;
    schemaName : string;
    status : string
}.
End TenantSummary.

Inductive Json : Type :=
  | json_tenant (tenant : TenantData.t)      (* { tenant: {...} } *)
  | json_tenant_message (tenant : TenantSummary.t) (message : string)
                                             (* { tenant: {...}, message: '...' } *)
  | json_error (message : string)            (* { error: '...' } *)
  | json_exception (error : Exception).      (* { error: error.message } *)

(** [res.status(code).json(body)] *)
Record Response : Type := send {
  code : nat;
  body : Json
}.

(** The value an assignment is built from: a falsy field adds none. *)
Definition assigned (v : option string) : option string :=
  if truthy v then v else None.

Definition PATCH (entityId : string) (reqbody : PatchBody.t) : M Response :=
  let entityName := PatchBody.entityName reqbody in
  let status := PatchBody.status reqbody in
  try_catch
    (existing <- await raw (SELECT_by_entity_id entityId) ;;
     if bool_decide (length existing = 0%nat) then
       ret (send 404 (json_error "Tenant not found"))
     else
       let updates :=
         (if truthy entityName then ["entity_name = ?"] else []) ++
         (if truthy status then ["status = ?"] else []) in
       await (if bool_decide (0 < length updates)%nat then
                await raw (UPDATE_tenant (assigned entityName) (assigned status) entityId) ;;
                ret ()
              else ret ()) ;;
       result <- await raw (SELECT_by_entity_id entityId) ;;
       match result with
       | [] => throw type_error
       | row :: _ => ret (send 200 (json_tenant (toTenantData row)))
       end)
    (λ error, ret (send 500 (json_exception error))).

(** ** [POST /tenants] *)

(** What the handler reads from the request: [req.headers['x-admin-key']] and
    the two fields of [req.body]. *)
Module PostRequest.
Record t : Type := mk {
    x_admin_key : option string;
    entityId : option string;
    entityName : option string
}.
End PostRequest.

(** [env] is [process.env.BEEZY_SSO_SECRET]. *)
Definition verifyAdminKey (env : option string) (req : PostRequest.t) : bool :=
  let adminKey := PostRequest.x_admin_key req in
  let expectedKey := js_or env (Some "beezy-sso-shared-secret") in
  bool_decide (adminKey = expectedKey).

Definition POST (env : option string) (req : PostRequest.t) : M Response :=
  if negb (verifyAdminKey env req) then ret (send 401 (json_error "Invalid admin key"))
  else
    try_catch
      (if negb (truthy (PostRequest.entityId req)) || negb (truthy (PostRequest.entityName req))
       then ret (send 400 (json_error "entityId and entityName are required"))
       else
         let entityId := default "" (PostRequest.entityId req) in
         let entityName := default "" (PostRequest.entityName req) in
         let id := derive_id entityId in
         let schemaName := derive_schemaName entityId in
         existing <- await raw (SELECT_by_entity_id entityId) ;;
         match existing with
         | row :: _ =>
             ret (send 200
                    (json_tenant_message
                       {| TenantSummary.id := Row.id row;
                          TenantSummary.entityId := Row.entity_id row;
                          TenantSummary.entityName := Row.entity_name row;
                          TenantSummary.schemaName := Row.schema_name row;
                          TenantSummary.status := Row.status row |}
                       "Tenant already exists"))
         | [] =>
             await raw (CREATE_SCHEMA schemaName) ;;
             await raw (INSERT_tenant false id entityId entityName schemaName) ;;
             ret (send 201
                    (json_tenant_message
                       {| TenantSummary.id := id;
                          TenantSummary.entityId := entityId;
                          TenantSummary.entityName := entityName;
                          TenantSummary.schemaName := schemaName;
                          TenantSummary.status := "active" |}
                       "Tenant created successfully"))
         end)
      (λ error, ret (send 500 (json_exception error))).

(** ** The other routes *)

(** The bodies the other handlers answer with. *)
Inductive Payload : Type :=
  | payload_error (message : string)          (* { error: '...' } *)
  | payload_exception (error : Exception)     (* { error: error.message } *)
  | payload_tenants (tenants : list TenantData.t)
                                              (* { tenants: [...] } *)
  | payload_deleted (entityId entityName schemaName : string).
      (* { message: 'Tenant deleted successfully', deletedTenant: {...} } *)

(** [res.status(status).json(payload)] *)
Record Reply : Type := reply {
  http_status : nat;
  payload : Payload
}.

(** [api/tenants/route.ts] *)
Module Tenants.

(** [GET /tenants] *)
Definition GET (env : option string) (req : PostRequest.t) : M Reply :=
  if negb (verifyAdminKey env req) then ret (reply 401 (payload_error "Invalid admin key"))
  else
    try_catch
      (result <- await raw SELECT_all_newest_first ;;
       let tenants := toTenantData <$> result in
       ret (reply 200 (payload_tenants tenants)))
      (λ error, ret (reply 500 (payload_exception error))).

End Tenants.

(** The routes under [/admin/tenants], which ask for no key. *)
Module AdminTenants.

(** [GET /admin/tenants] *)
Definition GET : M Reply :=
  try_catch
    (result <- await raw SELECT_all_newest_first ;;
     let tenants := toTenantData <$> result in
     ret (reply 200 (payload_tenants tenants)))
    (λ error, ret (reply 500 (payload_exception error))).

(** [POST /admin/tenants]; of the request only the body is read. *)
Definition POST (req : PostRequest.t) : M Response :=
  try_catch
    (if negb (truthy (PostRequest.entityId req)) || negb (truthy (PostRequest.entityName req))
     then ret (send 400 (json_error "entityId and entityName are required"))
     else
       let entityId := default "" (PostRequest.entityId req) in
       let entityName := default "" (PostRequest.entityName req) in
       let id := derive_id entityId in
       let schemaName := derive_schemaName entityId in
       existing <- await raw (SELECT_by_entity_id entityId) ;;
       match existing with
       | row :: _ =>
           ret (send 200
                  (json_tenant_message
                     {| TenantSummary.id := Row.id row;
                        TenantSummary.entityId := Row.entity_id row;
                        TenantSummary.entityName := Row.entity_name row;
                        TenantSummary.schemaName := Row.schema_name row;
                        TenantSummary.status := Row.status row |}
                     "Tenant already exists"))
       | [] =>
           await raw (CREATE_SCHEMA schemaName) ;;
           await raw (INSERT_tenant false id entityId entityName schemaName) ;;
           ret (send 201
                  (json_tenant_message
                     {| TenantSummary.id := id;
                        TenantSummary.entityId := entityId;
                        TenantSummary.entityName := entityName;
                        TenantSummary.schemaName := schemaName;
                        TenantSummary.status := "active" |}
                     "Tenant created successfully"))
       end)
    (λ error, ret (send 500 (json_exception error))).

End AdminTenants.

(** The routes under [/admin/tenants/:entityId] besides [PATCH]. *)
Module AdminTenant.

(** [GET /admin/tenants/:entityId] *)
Definition GET (entityId : string) : M Response :=
  try_catch
    (result <- await raw (SELECT_by_entity_id entityId) ;;
     match result with
     | [] => ret (send 404 (json_error "Tenant not found"))
     | row :: _ => ret (send 200 (json_tenant (toTenantData row)))
     end)
    (λ error, ret (send 500 (json_exception error))).

(** [DELETE /admin/tenants/:entityId] *)
Definition DELETE (entityId : string) : M Reply :=
  try_catch
    (result <- await raw (SELECT_by_entity_id entityId) ;;
     match result with
     | [] => ret (reply 404 (payload_error "Tenant not found"))
     | row :: _ =>
         await raw (DROP_SCHEMA (Row.schema_name row)) ;;
         await raw (DELETE_by_entity_id entityId) ;;
         ret (reply 200
                (payload_deleted (Row.entity_id row) (Row.entity_name row)
                   (Row.schema_name row)))
     end)
    (λ error, ret (reply 500 (payload_exception error))).

End AdminTenant.

(** ** [POST /auth/beezy-sso] *)

(** [req.body], cast to [BeezySSoPayload] without a check: a field the body
    lacks is [None] ([undefined]).  A [timestamp] that is there is a whole
    number of milliseconds. *)
Module BeezySSoPayload.
Record t : Type := mk {
    entityId : option string;
    entityName : option string;
    userId : option string;
    email : option string;
    role : option string;
    timestamp : option Z;
    signature : option string
}.
End BeezySSoPayload.

(** A field inside a template literal. *)
Definition template_string (v : option string) : string :=
  default "undefined" v.

(** A whole number below 10^21 in absolute value, as every [timestamp] within
    five minutes of the clock is, is printed in decimal. *)
Definition template_number (v : option Z) : string :=
  match v with
  | Some n => pretty n
  | None => "undefined"
  end.

(** [crypto.timingSafeEqual(Buffer.from(a), Buffer.from(b))], on strings as
    the bytes they are sent as: a [RangeError] ([None]) when the lengths
    differ. *)
Definition timingSafeEqual (a b : string) : option bool :=
  if bool_decide (String.length a = String.length b) then Some (bool_decide (a = b))
  else None.

(** [Math.abs(now - timestamp) > 5 * 60 * 1000]; with [timestamp] undefined
    the difference is [NaN], and no comparison with [NaN] holds. *)
Definition expired (now : Z) (timestamp : option Z) : bool :=
  match timestamp with
  | Some t => bool_decide (5 * 60 * 1000 < Z.abs (now - t))
  | None => false
  end.

(** [res.cookie(name, value, options)] *)
Module Cookie.
Record t : Type := mk {
    name : string;
    value : string;
    httpOnly : bool;
    secure : bool;
    sameSite : string;
    maxAge : Z
}.
End Cookie.

(** The [tenant] and the [user] of the answer; a field that is [undefined] is
    left out of the JSON. *)
Module SsoTenant.
Record t : Type := mk {
    id : string;
    entityId : string;
    entityName : option string;
    schemaName : string
}.
End SsoTenant.

Module SsoUser.
Record t : Type := mk {
    id : string;
    email : string;
    role : option string
}.
End SsoUser.

Inductive SsoJson : Type :=
  | sso_error (message : string)            (* { error: '...' } *)
  | sso_exception (error : Exception)       (* { error: error.message }, from the database *)
  | sso_range_error                         (* { error: error.message }, from timingSafeEqual *)
  | sso_success (tenant : SsoTenant.t) (user : SsoUser.t) (redirectUrl : string).
      (* { success: true, tenant: {...}, user: {...}, redirectUrl: '...' } *)

(** The cookies set on the response, in order, and [res.status(..).json(..)];
    [res.json] alone answers 200. *)
Record SsoResponse : Type := respond {
  sso_status : nat;
  cookies : list Cookie.t;
  sso_json : SsoJson
}.

Module BeezySso.

(** [hmac secret message] is
    [crypto.createHmac('sha256', secret).update(message).digest('hex')]; of
    the payload only [entityId], [userId] and [timestamp] are read. *)
Definition verifySignature (hmac : string → string → string)
    (payload : BeezySSoPayload.t) (signature secret : string) : option bool :=
  let message := template_string (BeezySSoPayload.entityId payload) +:+ ":" +:+
                 template_string (BeezySSoPayload.userId payload) +:+ ":" +:+
                 template_number (BeezySSoPayload.timestamp payload) in
  let expectedSignature := hmac secret message in
  timingSafeEqual signature expectedSignature.

Definition tenant_cookie (NODE_ENV : option string) (name value : string) : Cookie.t :=
  {| Cookie.name := name;
     Cookie.value := value;
     Cookie.httpOnly := true;
     Cookie.secure := bool_decide (NODE_ENV = Some "production");
     Cookie.sameSite := "lax";
     Cookie.maxAge := 24 * 60 * 60 * 1000 |}.

(** [BEEZY_SSO_SECRET] and [NODE_ENV] are the variables of [process.env],
    [date_now] is [Date.now()].  Past the check of the required fields
    [entityId], [userId], [email] and [signature] are strings.  What
    [verifySignature] throws is caught by the handler's [catch] like an error
    of the database, before any statement has gone out.  The
    [CREATE TABLE IF NOT EXISTS] of this route comes without the indexes,
    which the database as modelled does not record. *)
Definition POST (hmac : string → string → string) (BEEZY_SSO_SECRET NODE_ENV : option string)
    (date_now : Z) (payload : BeezySSoPayload.t) : M SsoResponse :=
  let entityId := BeezySSoPayload.entityId payload in
  let entityName := BeezySSoPayload.entityName payload in
  let userId := BeezySSoPayload.userId payload in
  let email := BeezySSoPayload.email payload in
  let role := BeezySSoPayload.role payload in
  let timestamp := BeezySSoPayload.timestamp payload in
  let signature := BeezySSoPayload.signature payload in
  if negb (truthy entityId) || negb (truthy userId) || negb (truthy email)
     || negb (truthy signature)
  then ret (respond 400 [] (sso_error "Missing required fields"))
  else
    let entityId := default "" entityId in
    let now := date_now in
    if expired now timestamp then ret (respond 401 [] (sso_error "Token expired"))
    else
      let ssoSecret := default "" (js_or BEEZY_SSO_SECRET (Some "beezy-sso-secret")) in
      match verifySignature hmac payload (default "" signature) ssoSecret with
      | None => ret (respond 500 [] sso_range_error)
      | Some false => ret (respond 401 [] (sso_error "Invalid signature"))
      | Some true =>
          try_catch
            (await raw CREATE_TABLE_tenants ;;
             tenantResult <- await raw (SELECT_by_entity_id entityId) ;;
             tenant <- await
               (match head tenantResult with
                | Some row =>
                    ret {| SsoTenant.id := Row.id row;
                           SsoTenant.entityId := Row.entity_id row;
                           SsoTenant.entityName := Some (Row.entity_name row);
                           SsoTenant.schemaName := Row.schema_name row |}
                | None =>
                    let id := derive_id entityId in
                    let schemaName := derive_schemaName entityId in
                    await raw (CREATE_SCHEMA schemaName) ;;
                    await raw (INSERT_tenant false id entityId
                                 (default "" (js_or entityName
                                                (Some ("Entity " +:+ entityId))))
                                 schemaName) ;;
                    ret {| SsoTenant.id := id;
                           SsoTenant.entityId := entityId;
                           SsoTenant.entityName := entityName;
                           SsoTenant.schemaName := schemaName |}
                end) ;;
             ret (respond 200
                    [tenant_cookie NODE_ENV "tenant_id" entityId;
                     tenant_cookie NODE_ENV "tenant_schema" (SsoTenant.schemaName tenant)]
                    (sso_success tenant
                       {| SsoUser.id := default "" userId;
                          SsoUser.email := default "" email;
                          SsoUser.role := role |}
                       "/app")))
            (λ error, ret (respond 500 [] (sso_exception error)))
      end.

End BeezySso.

(** [api/auth/beezy-sso-redirect/route.ts]: the check of the signature, which
    here catches what [timingSafeEqual] throws. *)
Module BeezySsoRedirect.

Definition verifySignature (hmac : string → string → string)
    (entityId userId : string) (timestamp : option Z) (signature secret : string) : bool :=
  let message := entityId +:+ ":" +:+ userId +:+ ":" +:+ template_number timestamp in
  let expectedSignature := hmac secret message in
  match timingSafeEqual signature expectedSignature with
  | Some equal => equal
  | None => false
  end.

End BeezySsoRedirect.

(** ** A first run *)

Definition empty_db : Db :=
  {| tenants := []; schemas := ∅; search_path := ["public"] |}.

Definition fresh : Conn := {| store := empty_db; issued := [] |}.

(** The connection a computation leaves and what it returned. *)
Definition after {A} (m : M A) (now : Z) (c : Conn) : Conn := (m now c).2.
Definition returned {A} (m : M A) (now : Z) (c : Conn) : Result A := (m now c).1.

(** ** Vocabulary of the properties *)

(** The first row a [SELECT ... WHERE entity_id = ?] returns. *)
Definition row_of (entityId : string) (db : Db) : option Row.t :=
  head (filter (λ r, has_entity_id entityId r) (tenants db)).

(** A tenant matches [entityId]. *)
Definition registered (entityId : string) (db : Db) : Prop :=
  Exists (λ r, Row.entity_id r = entityId) (tenants db).

(** The keys of the table: [id] is the primary key, [entity_id] and
    [schema_name] are declared [UNIQUE]. *)
Definition unique_keys (db : Db) : Prop :=
  NoDup (Row.id <$> tenants db) ∧
  NoDup (Row.entity_id <$> tenants db) ∧
  NoDup (Row.schema_name <$> tenants db).

Fixpoint string_forallb (p : ascii → bool) (s : string) : bool :=
  match s with
  | EmptyString => true
  | String c s' => p c && string_forallb p s'
  end.

Definition is_alnum (c : ascii) : bool :=
  let n := nat_of_ascii c in
  ((48 <=? n) && (n <=? 57) || (65 <=? n) && (n <=? 90) || (97 <=? n) && (n <=? 122))%nat.

(** *** The bounds of the model

    A string is read as the bytes PostgreSQL receives.  [exec] is what the
    server does with a statement only within bounds, which the properties
    name where they depend on them:
    - a value bound to a [?] holds no character U+0000 (the server refuses a
      parameter that does);
    - [varchar] counts bytes, which are characters for ASCII values, or for
      any value when the column width is not exceeded in bytes;
    - a name pasted between double quotes holds no double quote and no
      U+0000 (otherwise the text is no longer the one statement), and stands
      for itself when it is not empty, has no [?] (which the query builder
      rewrites) and at most 63 bytes (a longer identifier is cut). *)

(** A value the server takes as a parameter. *)
Definition bindable (s : string) : bool :=
  string_forallb (λ c, negb (bool_decide (c = "000"%char))) s.


(** An ASCII value without U+0000: its bytes are its characters. *)
Definition plain (s : string) : bool :=
  string_forallb (λ c, let n := nat_of_ascii c in (1 <=? n) && (n <=? 127))%nat s.

Definition word_char (c : ascii) : bool :=
  is_alnum c || bool_decide (c = "_"%char).

(** The name of a tenant's namespace that the server keeps as it is pasted:
    [tenant_entity_] followed by letters, digits and underscores, 63 bytes at
    most. *)
Definition tenant_namespace (s : string) : bool :=
  String.prefix "tenant_entity_" s && (String.length s <=? 63)%nat &&
  string_forallb word_char s.

(** An [entityId] of letters, digits, hyphens and underscores, short enough
    for the namespace name derived from it to be kept whole. *)
Definition valid_entityId (entityId : string) : bool :=
  (String.length entityId <=? 49)%nat &&
  string_forallb (λ c, word_char c || bool_decide (c = "-"%char)) entityId.

Definition plain_opt (v : option string) : Prop :=
  ∀ s, v = Some s → plain s = true.

(** The statements within the bounds, as far as the code issues them: the
    namespaces it creates and drops are those of tenants, the [search_path]
    it sets is [public], after a tenant's namespace or alone. *)
Definition modelled (stmt : Stmt) : Prop :=
  match stmt with
  | INSERT_tenant _ _ e n _ => valid_entityId e = true ∧ plain n = true
  | UPDATE_tenant n st _ => plain_opt n ∧ plain_opt st
  | CREATE_SCHEMA s | DROP_SCHEMA s => tenant_namespace s = true
  | SET_search_path p => Forall (λ s, s = "public" ∨ tenant_namespace s = true) p
  | _ => True
  end.

(** The rows of the table are within the bounds: every [entity_id] can be
    bound and every [schema_name] is the name of a tenant's namespace. *)
Definition tidy (db : Db) : Prop :=
  Forall (λ r, bindable (Row.entity_id r) = true ∧
               tenant_namespace (Row.schema_name r) = true)
         (tenants db).

(** The statements the code issues, within the bounds: an [INSERT] always
    carries the [id] and the namespace name derived from its [entity_id]. *)
Definition issuable (stmt : Stmt) : Prop :=
  modelled stmt ∧
  match stmt with
  | INSERT_tenant _ i e _ s => i = derive_id e ∧ s = derive_schemaName e
  | _ => True
  end.

(** The databases the code brings about within the bounds: from a table
    without rows, by statements it issues for [entityId]s that are valid and
    names and statuses that are plain, in any number and order. *)
Inductive reachable : Db → Prop :=
  | reachable_empty db : tenants db = [] → reachable db
  | reachable_exec now stmt db rows db' :
      reachable db → issuable stmt → exec now stmt db = Ok (rows, db') →
      reachable db'.

(** No drift: [id] and [schema_name] are what the columns store of the values
    derived from [entity_id]. *)
Definition stored_keys (db : Db) : Prop :=
  Forall (λ r, varchar 255 (derive_id (Row.entity_id r)) = Some (Row.id r) ∧
               varchar 255 (derive_schemaName (Row.entity_id r)) =
                 Some (Row.schema_name r))
         (tenants db).

(** No drift, within the bounds: every row is registered under a valid
    [entityId] and holds the [id] and the namespace name derived from it. *)
Definition derived_rows (db : Db) : Prop :=
  Forall (λ r, valid_entityId (Row.entity_id r) = true ∧
               Row.id r = derive_id (Row.entity_id r) ∧
               Row.schema_name r = derive_schemaName (Row.entity_id r))
         (tenants db).

(** No tenant registered under another [entity_id] holds the namespace
    derived from [entityId]. *)
Definition schema_free (entityId : string) (db : Db) : Prop :=
  Forall (λ r, Row.schema_name r = derive_schemaName entityId →
               Row.entity_id r = entityId)
         (tenants db).

(** A non-empty [entityId] of alphanumerics and hyphens. *)
Definition alnum_hyphen (entityId : string) : bool :=
  negb (bool_decide (entityId = "")) &&
  string_forallb (λ c, is_alnum c || bool_decide (c = "-"%char)) entityId.

Definition no_underscore (entityId : string) : bool :=
  string_forallb (λ c, negb (bool_decide (c = "_"%char))) entityId.

(** Equal in all fields except possibly [updatedAt]. *)
Definition same_but_updatedAt (t1 t2 : TenantData.t) : Prop :=
  TenantData.id t1 = TenantData.id t2 ∧
  TenantData.entityId t1 = TenantData.entityId t2 ∧
  TenantData.entityName t1 = TenantData.entityName t2 ∧
  TenantData.schemaName t1 = TenantData.schemaName t2 ∧
  TenantData.status t1 = TenantData.status t2 ∧
  TenantData.createdAt t1 = TenantData.createdAt t2.

(** [list()] puts [t1] before [t2]: [t1] was not created before [t2]. *)
Definition not_older (t1 t2 : TenantData.t) : Prop :=
  TenantData.createdAt t2 ≤ TenantData.createdAt t1.

(** The tenant identifier the middleware reads from the request is [entityId]. *)
Definition carries (req : Request.t) (entityId : string) : Prop :=
  js_or (Request.x_tenant_id req) (Request.tenant_id req) = Some entityId.

(** [t] with its status set and [updatedAt] refreshed. *)
Definition with_status (status : string) (now : Z) (t : TenantData.t) : TenantData.t :=
  {| TenantData.id := TenantData.id t;
     TenantData.entityId := TenantData.entityId t;
     TenantData.entityName := TenantData.entityName t;
     TenantData.schemaName := TenantData.schemaName t;
     TenantData.status := status;
     TenantData.createdAt := TenantData.createdAt t;
     TenantData.updatedAt := now |}.


(** A field of the PATCH body that is omitted or empty. *)
Definition absent (v : option string) : Prop := v = None ∨ v = Some "".

(** What a PATCH with body [b] may do to a row [r], giving [r']. *)
Definition patch_frame (b : PatchBody.t) (r r' : Row.t) : Prop :=
  Row.id r' = Row.id r ∧
  Row.entity_id r' = Row.entity_id r ∧
  Row.schema_name r' = Row.schema_name r ∧
  Row.created_at r' = Row.created_at r ∧
  (absent (PatchBody.entityName b) → Row.entity_name r' = Row.entity_name r) ∧
  (absent (PatchBody.status b) → Row.status r' = Row.status r) ∧
  (Row.entity_name r' = "" → Row.entity_name r = "").

(** [t] as a PATCH with body [b] at time [now] leaves it: the fields the body
    supplies, the time of the update, and the rest of [t]. *)
Definition patched (b : PatchBody.t) (now : Z) (t : TenantData.t) : TenantData.t :=
  {| TenantData.id := TenantData.id t;
     TenantData.entityId := TenantData.entityId t;
     TenantData.entityName :=
       default (TenantData.entityName t) (assigned (PatchBody.entityName b));
     TenantData.schemaName := TenantData.schemaName t;
     TenantData.status := default (TenantData.status t) (assigned (PatchBody.status b));
     TenantData.createdAt := TenantData.createdAt t;
     TenantData.updatedAt := now |}.

(** The values of the body can be bound and fit their columns. *)
Definition patch_fits (b : PatchBody.t) : Prop :=
  (∀ n, PatchBody.entityName b = Some n →
        bindable n = true ∧ (String.length n ≤ 255)%nat) ∧
  (∀ s, PatchBody.status b = Some s →
        bindable s = true ∧ (String.length s ≤ 50)%nat).

(** The secret [POST /auth/beezy-sso] checks signatures with. *)
Definition sso_secret (BEEZY_SSO_SECRET : option string) : string :=
  default "" (js_or BEEZY_SSO_SECRET (Some "beezy-sso-secret")).

(** The fields [POST /auth/beezy-sso] requires are there and not empty. *)
Definition sso_complete (payload : BeezySSoPayload.t) : Prop :=
  ¬ absent (BeezySSoPayload.entityId payload) ∧
  ¬ absent (BeezySSoPayload.userId payload) ∧
  ¬ absent (BeezySSoPayload.email payload) ∧
  ¬ absent (BeezySSoPayload.signature payload).

(** The payload passes every check made before the database is asked. *)
Definition sso_accepted (hmac : string → string → string) (BEEZY_SSO_SECRET : option string)
    (date_now : Z) (payload : BeezySSoPayload.t) : Prop :=
  sso_complete payload ∧
  expired date_now (BeezySSoPayload.timestamp payload) = false ∧
  BeezySso.verifySignature hmac payload
    (default "" (BeezySSoPayload.signature payload)) (sso_secret BEEZY_SSO_SECRET)
  = Some true.

(** The [user] an answer to [payload] names. *)
Definition sso_user (payload : BeezySSoPayload.t) : SsoUser.t :=
  {| SsoUser.id := default "" (BeezySSoPayload.userId payload);
     SsoUser.email := default "" (BeezySSoPayload.email payload);
     SsoUser.role := BeezySSoPayload.role payload |}.

(** The two cookies of a login. *)
Definition sso_cookies (NODE_ENV : option string) (entityId schemaName : string)
  : list Cookie.t :=
  [BeezySso.tenant_cookie NODE_ENV "tenant_id" entityId;
   BeezySso.tenant_cookie NODE_ENV "tenant_schema" schemaName].

(** The name a first login registers the tenant under. *)
Definition sso_entity_name (payload : BeezySSoPayload.t) : string :=
  default "" (js_or (BeezySSoPayload.entityName payload)
                (Some ("Entity " +:+ default "" (BeezySSoPayload.entityId payload)))).

Definition is_SET_search_path (stmt : Stmt) : bool :=
  match stmt with SET_search_path _ => true | _ => false end.

(** A computation keeps [P] true of the database whenever it runs. *)
Definition keeps {A} (P : Db → Prop) (m : M A) : Prop :=
  ∀ now c, P (store c) → P (store (after m now c)).

(** ** Sample registries *)

Definition acme : CreateTenantInput.t :=
  {| CreateTenantInput.entityId := "acme-1"; CreateTenantInput.entityName := "Acme Co" |}.

(** The registry after [create("acme-1", "Acme Co")] at time 10. *)
Definition with_acme : Conn := after (createTenant acme) 10 fresh.

(** The registry after [create("a_b", "First")] at time 10. *)
Definition with_a_b : Conn :=
  after (createTenant {| CreateTenantInput.entityId := "a_b";
                         CreateTenantInput.entityName := "First" |}) 10 fresh.

Fixpoint replicate_char (n : nat) (c : ascii) : string :=
  match n with
  | O => EmptyString
  | S n' => String c (replicate_char n' c)
  end.

Definition beta : CreateTenantInput.t :=
  {| CreateTenantInput.entityId := "beta-2"; CreateTenantInput.entityName := "Beta" |}.

(** The registry after [create("beta-2", "Beta")] at time 20 on top of
    [with_acme]. *)
Definition with_acme_beta : Conn := after (createTenant beta) 20 with_acme.




(** ** Properties *)

Arguments exec : simpl never.

(** Closes a decidable statement about a concrete registry by evaluation. *)
Ltac by_evaluation := apply (bool_decide_unpack _); vm_compute; exact I.

(** *** Running a computation *)

Lemma bind_Ok {A B} (m : M A) (k : A → M B) now c a c' :
  m now c = (Ok a, c') → bind m k now c = k a now c'.
Proof. unfold bind. by intros ->. Qed.

(** *** Strings and column values *)

Lemma string_length_app s1 s2 :
  String.length (s1 +:+ s2) = (String.length s1 + String.length s2)%nat.
Proof. induction s1 as [|a s1 IH]; simpl; [done|]. by rewrite IH. Qed.

Lemma replace_hyphens_length e : String.length (replace_hyphens e) = String.length e.
Proof. induction e as [|a e IH]; simpl; congruence. Qed.

(** On identifiers free of underscores the replacement loses nothing. *)
Lemma replace_hyphens_inj e1 e2 :
  no_underscore e1 = true → no_underscore e2 = true →
  replace_hyphens e1 = replace_hyphens e2 → e1 = e2.
Proof.
  revert e2. induction e1 as [|a1 e1 IH]; intros [|a2 e2]; simpl; try done.
  unfold no_underscore. simpl.
  intros [Ha1 H1]%andb_true_iff [Ha2 H2]%andb_true_iff [= Ha He].
  apply negb_true_iff, bool_decide_eq_false in Ha1, Ha2.
  f_equal; [|by apply IH].
  destruct (decide (a1 = "-"%char)), (decide (a2 = "-"%char)); congruence.
Qed.

Lemma alnum_hyphen_no_underscore e : alnum_hyphen e = true → no_underscore e = true.
Proof.
  unfold alnum_hyphen, no_underscore. intros [_ H]%andb_true_iff. revert H.
  induction e as [|a e IH]; simpl; [done|].
  intros [Ha He]%andb_true_iff. rewrite (IH He), andb_true_r.
  apply negb_true_iff, bool_decide_eq_false. intros ->. by vm_compute in Ha.
Qed.

Lemma string_take_all n s : (String.length s ≤ n)%nat → string_take n s = s.
Proof.
  revert s. induction n as [|n IH]; intros [|a s]; simpl; try done; [lia|].
  intros H. f_equal. apply IH. lia.
Qed.

Lemma string_drop_all n s : (String.length s ≤ n)%nat → string_drop n s = "".
Proof.
  revert s. induction n as [|n IH]; intros [|a s]; simpl; try done; [lia|].
  intros H. apply IH. lia.
Qed.

(** What a [VARCHAR(n)] column stores: the first [n] characters, provided the
    rest is spaces. *)
Lemma varchar_spec n s :
  varchar n s = if all_spaces (string_drop n s) then Some (string_take n s) else None.
Proof.
  unfold varchar. destruct (decide _) as [Hfit|Hlong]; [|done].
  by rewrite string_drop_all, string_take_all.
Qed.

Lemma string_take_app p x n :
  string_take (String.length p + n) (p +:+ x) = p +:+ string_take n x.
Proof. induction p as [|a p IH]; simpl; [done|]. by rewrite IH. Qed.

Lemma string_drop_app p x n :
  string_drop (String.length p + n) (p +:+ x) = string_drop n x.
Proof. induction p as [|a p IH]; simpl; [done|]. by rewrite IH. Qed.

Lemma string_take_take m n s :
  (m ≤ n)%nat → string_take m (string_take n s) = string_take m s.
Proof.
  revert n s. induction m as [|m IH]; intros [|n] [|a s] H; simpl; try done; [lia|].
  f_equal. apply IH. lia.
Qed.

Lemma all_spaces_drop_take m n s :
  all_spaces (string_drop m s) = true →
  all_spaces (string_drop m (string_take n s)) = true.
Proof.
  revert m s. induction n as [|n IH]; intros m s.
  - destruct s; simpl; by destruct m.
  - destruct s as [|a s]; [by destruct m|]. destruct m as [|m]; simpl.
    + intros [Ha Hs]%andb_true_iff. rewrite Ha. simpl.
      apply (IH 0%nat s). by destruct s.
    + apply IH.
Qed.

Lemma replace_hyphens_take n s :
  replace_hyphens (string_take n s) = string_take n (replace_hyphens s).
Proof. revert s. induction n as [|n IH]; intros [|a s]; simpl; try done. by rewrite IH. Qed.

Lemma replace_hyphens_drop n s :
  replace_hyphens (string_drop n s) = string_drop n (replace_hyphens s).
Proof. revert s. induction n as [|n IH]; intros [|a s]; simpl; try done. Qed.

Lemma all_spaces_replace_hyphens s :
  all_spaces (replace_hyphens s) = all_spaces s.
Proof.
  induction s as [|a s IH]; simpl; [done|]. rewrite IH. f_equal.
  destruct (decide (a = "-"%char)) as [->|]; done.
Qed.

(** The key stored for the stored [entity_id] is the key stored for the
    [entity_id] that was given: cutting the spaces off the identifier cuts
    nothing else off the key. *)
Lemma stored_key_stable (f : string → string) n p e0 e' k :
  (∀ m s, f (string_take m s) = string_take m (f s)) →
  (String.length p ≤ n)%nat →
  varchar n e0 = Some e' →
  varchar n (p +:+ f e0) = Some k →
  varchar n (p +:+ f e') = Some k.
Proof.
  intros Hf Hp. rewrite !varchar_spec.
  destruct (all_spaces (string_drop n e0)); [|done]. intros [= <-].
  replace n with (String.length p + (n - String.length p))%nat by lia.
  rewrite !string_drop_app, !string_take_app.
  destruct (all_spaces (string_drop _ (f e0))) eqn:Hspaces; [|done].
  intros [= <-]. rewrite Hf, all_spaces_drop_take by done.
  rewrite string_take_take by lia. done.
Qed.

Lemma string_take_length n s :
  (n ≤ String.length s)%nat → String.length (string_take n s) = n.
Proof.
  revert s. induction n as [|n IH]; intros [|a s]; simpl; try done; [lia|].
  intros H. f_equal. apply IH. lia.
Qed.

(** A stored value is the value given, or fills the column. *)
Lemma varchar_cases n s k :
  varchar n s = Some k → k = s ∨ String.length k = n.
Proof.
  unfold varchar. destruct (decide _) as [|Hlong]; [left; congruence|].
  destruct (all_spaces _); [|done]. intros [= <-]. right.
  apply string_take_length. lia.
Qed.

Lemma varchar_fits n s : (String.length s ≤ n)%nat → varchar n s = Some s.
Proof. intros H. unfold varchar. by rewrite decide_True. Qed.

(** A value that is stored in a [VARCHAR(255)] column as the empty string is
    the empty string. *)
Lemma varchar_empty s : varchar 255 s = Some "" → s = "".
Proof.
  unfold varchar. destruct (decide _) as [|Hlong]; [congruence|].
  destruct (all_spaces _); [|done]. destruct s; [done|]. done.
Qed.

Lemma absent_truthy v : absent v ↔ truthy v = false.
Proof.
  unfold absent, truthy. destruct v as [s|].
  - rewrite negb_false_iff, bool_decide_eq_true. split.
    + intros [?|[= ->]]; done.
    + intros ->. by right.
  - split; [done|]. intros _. by left.
Qed.

Lemma assigned_absent v : absent v → assigned v = None.
Proof. intros H%absent_truthy. unfold assigned. by rewrite H. Qed.

Lemma assigned_not_empty v s : assigned v = Some s → s ≠ "".
Proof.
  unfold assigned, truthy. destruct v as [s'|]; [|done].
  destruct (bool_decide (s' = "")) eqn:He; simpl; [done|].
  apply bool_decide_eq_false in He. congruence.
Qed.

(** *** Within the bounds *)

Lemma string_forallb_impl (p q : ascii → bool) s :
  (∀ c, p c = true → q c = true) →
  string_forallb p s = true → string_forallb q s = true.
Proof.
  intros Hpq. induction s as [|c s IH]; [done|]. simpl.
  intros [Hc Hs]%andb_true_iff. by rewrite (Hpq c Hc), IH.
Qed.

Lemma string_forallb_app p s1 s2 :
  string_forallb p (s1 +:+ s2) = string_forallb p s1 && string_forallb p s2.
Proof. induction s1 as [|c s1 IH]; simpl; [done|]. by rewrite IH, andb_assoc. Qed.

Lemma is_alnum_range c : is_alnum c = true → (48 ≤ nat_of_ascii c ≤ 122)%nat.
Proof.
  unfold is_alnum. rewrite !orb_true_iff, !andb_true_iff, !Nat.leb_le. lia.
Qed.

Lemma id_char_range c :
  word_char c || bool_decide (c = "-"%char) = true → (1 ≤ nat_of_ascii c ≤ 127)%nat.
Proof.
  unfold word_char. rewrite !orb_true_iff.
  intros [[H%is_alnum_range|H%bool_decide_eq_true]|H%bool_decide_eq_true];
    [lia|subst; vm_compute; lia|subst; vm_compute; lia].
Qed.

Lemma plain_bindable s : plain s = true → bindable s = true.
Proof.
  apply string_forallb_impl. intros c [H _]%andb_true_iff.
  apply Nat.leb_le in H. apply negb_true_iff, bool_decide_eq_false.
  intros ->. vm_compute in H. lia.
Qed.

Lemma valid_entityId_plain e : valid_entityId e = true → plain e = true.
Proof.
  unfold valid_entityId. intros [_ H]%andb_true_iff. revert H.
  apply string_forallb_impl. intros c Hc%id_char_range.
  apply andb_true_iff. split; apply Nat.leb_le; lia.
Qed.

Lemma valid_entityId_bindable e : valid_entityId e = true → bindable e = true.
Proof. intros H. by apply plain_bindable, valid_entityId_plain. Qed.

Lemma valid_entityId_length e : valid_entityId e = true → (String.length e ≤ 49)%nat.
Proof. unfold valid_entityId. intros [H _]%andb_true_iff. by apply Nat.leb_le. Qed.

Lemma word_char_replace_hyphens e :
  string_forallb (λ c, word_char c || bool_decide (c = "-"%char)) e = true →
  string_forallb word_char (replace_hyphens e) = true.
Proof.
  induction e as [|c e IH]; [done|]. simpl. intros [Hc He]%andb_true_iff.
  rewrite (IH He), andb_true_r.
  destruct (decide (c = "-"%char)) as [->|Hne]; [done|].
  rewrite (bool_decide_false _ Hne) in Hc. by rewrite orb_false_r in Hc.
Qed.

(** The namespace name derived from a valid [entityId] is kept as it is. *)
Lemma valid_entityId_namespace e :
  valid_entityId e = true → tenant_namespace (derive_schemaName e) = true.
Proof.
  intros Hv. pose proof (valid_entityId_length e Hv) as Hlen.
  unfold valid_entityId in Hv. apply andb_true_iff in Hv as [_ Hchars].
  unfold tenant_namespace, derive_schemaName.
  rewrite string_forallb_app, (word_char_replace_hyphens e Hchars), andb_true_r.
  rewrite string_length_app, replace_hyphens_length. simpl.
  apply andb_true_iff. split; [by destruct (replace_hyphens e)|].
  apply Nat.leb_le. lia.
Qed.

Lemma alnum_hyphen_valid e :
  alnum_hyphen e = true → (String.length e ≤ 49)%nat → valid_entityId e = true.
Proof.
  unfold alnum_hyphen, valid_entityId. intros [_ H]%andb_true_iff Hlen.
  apply andb_true_iff. split; [by apply Nat.leb_le|]. revert H.
  apply string_forallb_impl. intros c. unfold word_char.
  rewrite !orb_true_iff. tauto.
Qed.

Lemma derived_rows_tidy db : derived_rows db → tidy db.
Proof.
  unfold derived_rows, tidy. intros H. apply (Forall_impl _ _ _ H).
  intros r (Hv & _ & ->). split; [by apply valid_entityId_bindable|].
  by apply valid_entityId_namespace.
Qed.

Lemma derived_rows_fmap (g : Row.t → Row.t) db db0 :
  (∀ r, Row.id (g r) = Row.id r) →
  (∀ r, Row.entity_id (g r) = Row.entity_id r) →
  (∀ r, Row.schema_name (g r) = Row.schema_name r) →
  derived_rows db → derived_rows (with_tenants (g <$> tenants db) db0).
Proof.
  intros H1 H2 H3. unfold derived_rows. simpl. rewrite Forall_fmap.
  intros Hs. apply (Forall_impl _ _ _ Hs). intros r. simpl.
  by rewrite H1, H2, H3.
Qed.

(** *** Rows and lookups *)

Lemma row_of_None e db : row_of e db = None ↔ ¬ registered e db.
Proof.
  unfold row_of, registered. rewrite head_None, Exists_exists. split.
  - intros Hnil (r & Hr & He).
    assert (r ∈ filter (λ r, has_entity_id e r) (tenants db)) as Hin.
    { apply list_elem_of_filter. split; [|done]. unfold has_entity_id.
      by apply bool_decide_pack. }
    rewrite Hnil in Hin. by apply not_elem_of_nil in Hin.
  - intros Hno. destruct (filter _ _) as [|r l] eqn:Hf; [done|].
    exfalso. apply Hno. exists r.
    assert (r ∈ filter (λ r, has_entity_id e r) (tenants db)) as Hin
      by (rewrite Hf; left).
    apply list_elem_of_filter in Hin as [He Hin]. split; [done|].
    unfold has_entity_id in He. by apply bool_decide_unpack in He.
Qed.

Lemma row_of_Some e db r :
  row_of e db = Some r → r ∈ tenants db ∧ Row.entity_id r = e.
Proof.
  unfold row_of. intros Hh. apply head_Some_elem_of in Hh.
  apply list_elem_of_filter in Hh as [He Hin]. split; [done|].
  unfold has_entity_id in He. by apply bool_decide_unpack in He.
Qed.

Lemma registered_row_of e db : registered e db → ∃ r, row_of e db = Some r.
Proof.
  intros Hreg. destruct (row_of e db) as [r|] eqn:Hrow; [eauto|].
  apply row_of_None in Hrow. done.
Qed.

Lemma not_registered_Forall e db :
  ¬ registered e db ↔ Forall (λ r, Row.entity_id r ≠ e) (tenants db).
Proof. unfold registered. by rewrite <- Forall_Exists_neg. Qed.


(** A change of the rows that keeps every [entity_id] keeps which row a lookup
    finds. *)
Lemma row_of_fmap e g db db0 :
  (∀ r, Row.entity_id (g r) = Row.entity_id r) →
  row_of e (with_tenants (g <$> tenants db) db0) = g <$> row_of e db.
Proof.
  intros Hg. unfold row_of. simpl.
  induction (tenants db) as [|r rows IH]; [done|].
  csimpl. rewrite !filter_cons.
  assert (has_entity_id e (g r) = has_entity_id e r) as ->
    by (unfold has_entity_id; by rewrite Hg).
  destruct (has_entity_id e r); simpl; [done|apply IH].
Qed.

(** The first matching row after an [UPDATE] of the matching rows. *)
Lemma row_of_update_where e f db :
  (∀ r, Row.entity_id (f r) = Row.entity_id r) →
  row_of e (with_tenants (update_where e f (tenants db)) db) = f <$> row_of e db.
Proof.
  intros Hf. unfold update_where. rewrite row_of_fmap.
  - destruct (row_of e db) as [r|] eqn:Hr; [|done]. simpl.
    apply row_of_Some in Hr as [_ Hr].
    unfold has_entity_id. by rewrite bool_decide_true.
  - intros r. by destruct (has_entity_id e r).
Qed.

Lemma row_of_snoc e db db0 r :
  row_of e db = None → Row.entity_id r = e →
  row_of e (with_tenants (tenants db ++ [r]) db0) = Some r.
Proof.
  unfold row_of. intros Hno%head_None He. simpl.
  rewrite filter_app, Hno, filter_cons. simpl.
  rewrite decide_True; [done|]. by apply bool_decide_pack.
Qed.

Lemma existsb_has_entity_id e db :
  row_of e db = None → existsb (has_entity_id e) (tenants db) = false.
Proof.
  intros Hno%row_of_None%not_registered_Forall.
  induction Hno as [|r rows Hr _ IH]; [done|]. simpl. rewrite IH, orb_false_r.
  unfold has_entity_id. by apply bool_decide_eq_false.
Qed.

Lemma existsb_false (p : Row.t → bool) rows :
  Forall (λ r, p r = false) rows → existsb p rows = false.
Proof. induction 1 as [|r rows Hr _ IH]; [done|]. simpl. by rewrite Hr, IH. Qed.


Lemma update_where_frame (R : Row.t → Row.t → Prop) e f rows :
  (∀ r, R r r) → (∀ r, R r (f r)) → Forall2 R rows (update_where e f rows).
Proof.
  intros Hrefl Hf. unfold update_where.
  induction rows as [|r rows IH]; csimpl; constructor; [|done].
  by destruct (has_entity_id e r).
Qed.

Lemma Forall2_same (R : Row.t → Row.t → Prop) rows :
  (∀ r, R r r) → Forall2 R rows rows.
Proof. intros Hrefl. induction rows; by constructor. Qed.


Lemma no_active_after_inactive e now rows :
  filter (λ r, has_entity_id e r && is_active r)
         (update_where e (set_columns None (Some "inactive") now) rows) = [].
Proof.
  unfold update_where. induction rows as [|r rows IH]; [done|].
  csimpl. rewrite filter_cons.
  destruct (has_entity_id e r) eqn:Hr.
  - assert (has_entity_id e (set_columns None (Some "inactive") now r) = true) as ->
      by exact Hr.
    simpl. exact IH.
  - rewrite Hr. simpl. exact IH.
Qed.

#[global] Instance newest_first_total : Total newest_first.
Proof. intros r1 r2. unfold newest_first. lia. Qed.

#[global] Instance newest_first_trans : Transitive newest_first.
Proof. intros r1 r2 r3. unfold newest_first. lia. Qed.

(** *** Statements *)

(** The row an [INSERT] appends. *)
Lemma exec_INSERT_inv now b i e n s db rows db' :
  exec now (INSERT_tenant b i e n s) db = Ok (rows, db') →
  ∃ i' e' n' s',
    varchar 255 i = Some i' ∧ varchar 255 e = Some e' ∧
    varchar 255 n = Some n' ∧ varchar 255 s = Some s' ∧
    ((b = true ∧ existsb (has_entity_id e') (tenants db) = true ∧
      db' = with_tenants
              (update_where e' (set_columns (Some n') None now) (tenants db)) db) ∨
     (existsb (has_id i') (tenants db) = false ∧
      existsb (has_entity_id e') (tenants db) = false ∧
      existsb (has_schema_name s') (tenants db) = false ∧
      db' = with_tenants
              (tenants db ++
               [ {| Row.id := i'; Row.entity_id := e'; Row.entity_name := n';
                    Row.schema_name := s'; Row.status := "active";
                    Row.created_at := now; Row.updated_at := now |} ]) db)).
Proof.
  unfold exec.
  destruct (varchar 255 i) as [i'|]; [|done].
  destruct (varchar 255 e) as [e'|]; [|done].
  destruct (varchar 255 n) as [n'|]; [|done].
  destruct (varchar 255 s) as [s'|]; [|done].
  intros H. exists i', e', n', s'. do 4 (split; [done|]).
  destruct (b && existsb (has_entity_id e') (tenants db)) eqn:Hup.
  - apply andb_true_iff in Hup as [-> Hex]. left. by simplify_eq.
  - destruct (existsb (has_id i') (tenants db)); [done|].
    destruct (existsb (has_entity_id e') (tenants db)); [done|].
    destruct (existsb (has_schema_name s') (tenants db)); [done|].
    right. by simplify_eq.
Qed.

(** An [INSERT] of a row whose values fit and whose keys are free. *)
Lemma exec_INSERT_fresh now b i e n s db :
  (String.length i ≤ 255)%nat → (String.length e ≤ 255)%nat →
  (String.length n ≤ 255)%nat → (String.length s ≤ 255)%nat →
  existsb (has_id i) (tenants db) = false →
  existsb (has_entity_id e) (tenants db) = false →
  existsb (has_schema_name s) (tenants db) = false →
  exec now (INSERT_tenant b i e n s) db =
  Ok ([], with_tenants
            (tenants db ++
             [ {| Row.id := i; Row.entity_id := e; Row.entity_name := n;
                  Row.schema_name := s; Row.status := "active";
                  Row.created_at := now; Row.updated_at := now |} ]) db).
Proof.
  intros Hi He Hn Hs Hfi Hfe Hfs. unfold exec.
  rewrite !varchar_fits by done. rewrite Hfi, Hfe, Hfs.
  by rewrite andb_false_r.
Qed.

(** *** The keys of the table *)

Lemma existsb_false_not_in {B} (f : Row.t → B) `{EqDecision B} (v : B)
    (rows : list Row.t) :
  existsb (λ r, bool_decide (f r = v)) rows = false → v ∉ f <$> rows.
Proof.
  induction rows as [|r rows IH]; csimpl; [intros _; apply not_elem_of_nil|].
  intros H. apply orb_false_iff in H as [Hr Hrows].
  apply not_elem_of_cons. split; [|by apply IH].
  intros ->. by rewrite bool_decide_true in Hr.
Qed.

Lemma NoDup_fmap_snoc {B} (f : Row.t → B) (rows : list Row.t) r :
  NoDup (f <$> rows) → f r ∉ f <$> rows → NoDup (f <$> (rows ++ [r])).
Proof.
  intros Hnd Hnew. rewrite fmap_app. apply NoDup_app. split; [done|]. split.
  - intros x Hx Hx'. apply list_elem_of_singleton in Hx'. by subst.
  - apply NoDup_singleton.
Qed.

Lemma fmap_key_update {B} (f : Row.t → B) (g : Row.t → Row.t) (rows : list Row.t) :
  (∀ r, f (g r) = f r) → f <$> (g <$> rows) = f <$> rows.
Proof.
  intros Hg. rewrite <- list_fmap_compose. apply list_fmap_ext.
  intros i r _. apply Hg.
Qed.

Lemma unique_keys_fmap (g : Row.t → Row.t) db db0 :
  (∀ r, Row.id (g r) = Row.id r) →
  (∀ r, Row.entity_id (g r) = Row.entity_id r) →
  (∀ r, Row.schema_name (g r) = Row.schema_name r) →
  unique_keys db → unique_keys (with_tenants (g <$> tenants db) db0).
Proof.
  intros H1 H2 H3 (Hi & He & Hs). unfold unique_keys. simpl.
  by rewrite !fmap_key_update.
Qed.

Lemma unique_keys_update_where e n st now db db0 :
  unique_keys db →
  unique_keys (with_tenants (update_where e (set_columns n st now) (tenants db)) db0).
Proof.
  unfold update_where. apply unique_keys_fmap;
    intros r; by destruct (has_entity_id e r).
Qed.

(** Whatever statement runs, the keys stay unique. *)
Lemma exec_unique_keys now stmt db rows db' :
  unique_keys db → exec now stmt db = Ok (rows, db') → unique_keys db'.
Proof.
  intros Hu Hexec. destruct stmt;
    try (unfold exec in Hexec; simplify_eq; exact Hu).
  - apply exec_INSERT_inv in Hexec
      as (i' & e' & n' & s' & _ & _ & _ & _ &
          [(_ & _ & ->)|(Hi & He & Hs & ->)]).
    + by apply unique_keys_update_where.
    + destruct Hu as (Hui & Hue & Hus). unfold unique_keys. simpl.
      split; [|split]; apply NoDup_fmap_snoc; try done; simpl.
      * by apply (existsb_false_not_in Row.id).
      * by apply (existsb_false_not_in Row.entity_id).
      * by apply (existsb_false_not_in Row.schema_name).
  - unfold exec in Hexec.
    destruct (varchar_opt 255 entity_name) as [n'|]; [|done].
    destruct (varchar_opt 50 status) as [st'|]; [|done].
    simplify_eq. by apply unique_keys_update_where.
  - unfold exec in Hexec. simplify_eq.
    destruct Hu as (Hui & Hue & Hus). unfold unique_keys. simpl.
    split; [|split].
    + apply (sublist_NoDup _ _ Hui), fmap_sublist, sublist_filter.
    + apply (sublist_NoDup _ _ Hue), fmap_sublist, sublist_filter.
    + apply (sublist_NoDup _ _ Hus), fmap_sublist, sublist_filter.
Qed.

Lemma keeps_ret {A} P (a : A) : keeps P (ret a).
Proof. by intros now c. Qed.

Lemma keeps_throw {A} P e : keeps P (@throw A e).
Proof. by intros now c. Qed.

Lemma keeps_bind {A B} P (m : M A) (k : A → M B) :
  keeps P m → (∀ a, keeps P (k a)) → keeps P (bind m k).
Proof.
  intros Hm Hk now c HP. specialize (Hm now c HP).
  unfold after, bind in *. destruct (m now c) as [[a|e] c']; simpl in *; [|done].
  by apply Hk.
Qed.

Lemma keeps_try_catch {A} P (m : M A) (h : Exception → M A) :
  keeps P m → (∀ e, keeps P (h e)) → keeps P (try_catch m h).
Proof.
  intros Hm Hh now c HP. specialize (Hm now c HP).
  unfold after, try_catch in *. destruct (m now c) as [[a|e] c']; simpl in *; [done|].
  by apply Hh.
Qed.

Lemma keeps_raw P stmt :
  (∀ now db rows db', P db → exec now stmt db = Ok (rows, db') → P db') →
  keeps P (raw stmt).
Proof.
  intros Hexec now c HP. unfold after, raw.
  destruct (exec now stmt (store c)) as [[rows db']|e] eqn:He; simpl; [|done].
  by eapply Hexec.
Qed.

Lemma raw_unique_keys stmt : keeps unique_keys (raw stmt).
Proof. apply keeps_raw. intros now db rows db'. apply exec_unique_keys. Qed.

(** *** No drift *)

Lemma stored_keys_fmap (g : Row.t → Row.t) db db0 :
  (∀ r, Row.id (g r) = Row.id r) →
  (∀ r, Row.entity_id (g r) = Row.entity_id r) →
  (∀ r, Row.schema_name (g r) = Row.schema_name r) →
  stored_keys db → stored_keys (with_tenants (g <$> tenants db) db0).
Proof.
  intros H1 H2 H3. unfold stored_keys. simpl. rewrite Forall_fmap.
  intros Hs. apply (Forall_impl _ _ _ Hs). intros r. simpl.
  by rewrite H1, H2, H3.
Qed.

Lemma stored_keys_update_where e n st now db db0 :
  stored_keys db →
  stored_keys (with_tenants (update_where e (set_columns n st now) (tenants db)) db0).
Proof.
  unfold update_where. apply stored_keys_fmap;
    intros r; by destruct (has_entity_id e r).
Qed.

(** The statements the code issues keep the keys free of drift. *)
Lemma exec_stored_keys now stmt db rows db' :
  issuable stmt → stored_keys db → exec now stmt db = Ok (rows, db') →
  stored_keys db'.
Proof.
  intros Hiss Hs Hexec. destruct stmt;
    try (unfold exec in Hexec; simplify_eq; exact Hs).
  - destruct Hiss as [_ [-> ->]]. apply exec_INSERT_inv in Hexec
      as (i' & e' & n' & s' & Hi & He & _ & Hsch &
          [(_ & _ & ->)|(_ & _ & _ & ->)]).
    + by apply stored_keys_update_where.
    + unfold stored_keys. simpl. apply Forall_app. split; [exact Hs|].
      apply Forall_singleton. simpl. split.
      * apply (stored_key_stable (λ x, x) 255 "tenant_" entity_id e' i');
          [done|simpl; lia|done|done].
      * apply (stored_key_stable replace_hyphens 255 "tenant_entity_" entity_id e' s');
          [intros; apply replace_hyphens_take|simpl; lia|done|done].
  - unfold exec in Hexec.
    destruct (varchar_opt 255 entity_name) as [n'|]; [|done].
    destruct (varchar_opt 50 status) as [st'|]; [|done].
    simplify_eq. by apply stored_keys_update_where.
  - unfold exec in Hexec. simplify_eq. unfold stored_keys in *. simpl.
    apply Forall_forall. intros r [_ Hr]%list_elem_of_filter.
    by apply (proj1 (Forall_forall _ _) Hs).
Qed.

(** Every database the code brings about within the bounds has unique keys,
    free of drift. *)
Lemma reachable_unique_keys db : reachable db → unique_keys db.
Proof.
  induction 1 as [db Hempty|now stmt db rows db' _ IH _ Hexec].
  - unfold unique_keys. rewrite Hempty. repeat split; apply NoDup_nil_2.
  - by eapply exec_unique_keys.
Qed.

Lemma reachable_stored_keys db : reachable db → stored_keys db.
Proof.
  induction 1 as [db Hempty|now stmt db rows db' _ IH Hiss Hexec].
  - unfold stored_keys. rewrite Hempty. constructor.
  - by eapply exec_stored_keys.
Qed.

Lemma raw_reachable stmt : issuable stmt → keeps reachable (raw stmt).
Proof.
  intros Hiss now c Hreach. unfold after, raw.
  destruct (exec now stmt (store c)) as [[rows db']|e] eqn:He; simpl; [|done].
  by eapply reachable_exec.
Qed.

(** With unique keys, the lookup by [schema_name] finds the row itself. *)
Lemma unique_schema_name_lookup db r :
  unique_keys db → r ∈ tenants db →
  head (filter (λ r', has_schema_name (Row.schema_name r) r') (tenants db)) = Some r.
Proof.
  intros (_ & _ & Hs). induction (tenants db) as [|r0 rows IH]; intros Hin.
  - by apply not_elem_of_nil in Hin.
  - csimpl in Hs. apply NoDup_cons in Hs as [Hr0 Hs].
    rewrite filter_cons. apply elem_of_cons in Hin as [->|Hin].
    + rewrite decide_True; [done|]. by apply bool_decide_pack.
    + rewrite decide_False; [by apply IH|].
      intros Heq%bool_decide_unpack. apply Hr0. rewrite Heq.
      by apply list_elem_of_fmap_2.
Qed.

(** *** How the operations run *)

Lemma getTenantByEntityId_run e now c :
  getTenantByEntityId e now c =
  (Ok (toTenantData <$> row_of e (store c)), sent (SELECT_by_entity_id e) (store c) c).
Proof.
  unfold getTenantByEntityId, bind, raw, exec, row_of; simpl.
  destruct (filter _ _); reflexivity.
Qed.

Lemma getTenantBySchemaName_run s now c :
  getTenantBySchemaName s now c =
  (Ok (toTenantData <$> head (filter (λ r, has_schema_name s r) (tenants (store c)))),
   sent (SELECT_by_schema_name s) (store c) c).
Proof.
  unfold getTenantBySchemaName, bind, raw, exec; simpl.
  destruct (filter _ _); reflexivity.
Qed.

Lemma listTenants_run now c :
  listTenants now c =
  (Ok (toTenantData <$> merge_sort newest_first (tenants (store c))),
   sent SELECT_all_newest_first (store c) c).
Proof. reflexivity. Qed.

Lemma getTenantByEntityId_keeps P e : keeps P (getTenantByEntityId e).
Proof. intros now c HP. unfold after. by rewrite getTenantByEntityId_run. Qed.

(** The two lookups agree on every registered tenant. *)
Lemma getTenantBySchemaName_agrees e t now now' c :
  unique_keys (store c) →
  returned (getTenantByEntityId e) now c = Ok (Some t) →
  returned (getTenantBySchemaName (TenantData.schemaName t)) now' c = Ok (Some t).
Proof.
  unfold returned. rewrite getTenantByEntityId_run, getTenantBySchemaName_run. simpl.
  intros Hu [= Ht]. destruct (row_of e (store c)) as [r|] eqn:Hr; simplify_eq/=.
  apply row_of_Some in Hr as [Hin _].
  by rewrite (unique_schema_name_lookup _ _ Hu Hin).
Qed.

Lemma deleteTenant_run e now c :
  deleteTenant e now c =
  match row_of e (store c) with
  | None => (Ok false, sent (SELECT_by_entity_id e) (store c) c)
  | Some r =>
      (Ok true,
       sent (DELETE_by_entity_id e)
         (with_tenants (filter (λ r, negb (has_entity_id e r)) (tenants (store c)))
            (with_schemas (schemas (store c) ∖ {[ Row.schema_name r ]}) (store c)))
         (sent (DROP_SCHEMA (Row.schema_name r)) (store c)
            (sent (SELECT_by_entity_id e) (store c) c)))
  end.
Proof.
  unfold deleteTenant.
  rewrite (bind_Ok _ _ _ _ _ _ (getTenantByEntityId_run e now c)).
  destruct (row_of e (store c)) as [r|]; reflexivity.
Qed.

Lemma updateTenantStatus_run e s now c :
  updateTenantStatus e s now c =
  let db' := with_tenants
               (update_where e (set_columns None (Some (status_text s)) now)
                  (tenants (store c))) (store c) in
  (Ok (toTenantData <$> row_of e db'),
   sent (SELECT_by_entity_id e) db'
     (sent (UPDATE_tenant None (Some (status_text s)) e) db' c)).
Proof.
  unfold updateTenantStatus, bind at 1, raw at 1, exec. simpl.
  assert (varchar 50 (status_text s) = Some (status_text s)) as ->
    by (by destruct s).
  simpl. by rewrite getTenantByEntityId_run.
Qed.

(** The row [updateStatus] returns for a tenant that exists. *)
Lemma updateTenantStatus_existing e s t now c :
  returned (getTenantByEntityId e) now c = Ok (Some t) →
  returned (updateTenantStatus e s) now c =
    Ok (Some (with_status (status_text s) now t)).
Proof.
  unfold returned. rewrite updateTenantStatus_run, getTenantByEntityId_run.
  cbv zeta. simpl. rewrite row_of_update_where by done.
  intros [= Ht]. by destruct (row_of e (store c)) as [r|]; simplify_eq/=.
Qed.

Lemma createTenant_existing input now c r :
  row_of (CreateTenantInput.entityId input) (store c) = Some r →
  createTenant input now c =
  (Ok (Some (toTenantData r)),
   sent (SELECT_by_entity_id (CreateTenantInput.entityId input)) (store c) c).
Proof.
  intros Hr. unfold createTenant. cbv zeta.
  rewrite (bind_Ok _ _ _ _ _ _ (getTenantByEntityId_run _ now c)).
  by rewrite Hr.
Qed.

Lemma createTenant_new input now c :
  let e := CreateTenantInput.entityId input in
  let s := derive_schemaName e in
  let ins := INSERT_tenant true (derive_id e) e (CreateTenantInput.entityName input) s in
  let c1 := sent (CREATE_SCHEMA s) (with_schemas (schemas (store c) ∪ {[ s ]}) (store c))
              (sent (SELECT_by_entity_id e) (store c) c) in
  row_of e (store c) = None →
  createTenant input now c =
  match exec now ins (store c1) with
  | Ok (_, db') =>
      (Ok (toTenantData <$> row_of e db'),
       sent (SELECT_by_entity_id e) db' (sent ins db' c1))
  | Throw err => (Throw err, sent ins (store c1) c1)
  end.
Proof.
  intros e s ins c1 Hr. unfold createTenant. cbv zeta.
  rewrite (bind_Ok _ _ _ _ _ _ (getTenantByEntityId_run _ now c)).
  fold e. rewrite Hr. simpl.
  unfold bind at 1. unfold raw at 1.
  change (exec now (CREATE_SCHEMA (derive_schemaName e))
            (store (sent (SELECT_by_entity_id e) (store c) c)))
    with (Ok (@nil Row.t, with_schemas (schemas (store c) ∪ {[ s ]}) (store c))).
  fold s. unfold bind at 1. unfold raw at 1. fold ins. subst c1.
  destruct (exec now ins _) as [[rows db']|err]; [|done].
  by rewrite getTenantByEntityId_run.
Qed.

(** What [create] returns is what the table holds for the [entityId] once it
    is done. *)
Lemma createTenant_returns_stored input now c t :
  returned (createTenant input) now c = Ok (Some t) →
  toTenantData <$> row_of (CreateTenantInput.entityId input)
                    (store (after (createTenant input) now c)) = Some t.
Proof.
  unfold returned, after.
  destruct (row_of (CreateTenantInput.entityId input) (store c)) as [r|] eqn:Hr.
  - rewrite (createTenant_existing _ _ _ _ Hr). simpl. intros [= <-]. by rewrite Hr.
  - rewrite (createTenant_new _ _ _ Hr).
    destruct (exec _ _ _) as [[rows db']|err]; simpl; [|done].
    by intros [= ->].
Qed.

Lemma createTenant_unique_keys input : keeps unique_keys (createTenant input).
Proof.
  unfold createTenant. cbv zeta.
  apply keeps_bind; [apply getTenantByEntityId_keeps|].
  intros [t|]; [apply keeps_ret|].
  apply keeps_bind; [apply raw_unique_keys|]. intros _.
  apply keeps_bind; [apply raw_unique_keys|]. intros _.
  apply getTenantByEntityId_keeps.
Qed.

(** A tenant that is not registered yet gets registered when its values fit
    the columns and nobody holds the namespace derived for it; one that is
    registered is returned as it is stored. *)
Lemma createTenant_registers e name now c :
  (String.length e ≤ 241)%nat →
  (String.length name ≤ 255)%nat →
  stored_keys (store c) →
  schema_free e (store c) →
  let input := {| CreateTenantInput.entityId := e; CreateTenantInput.entityName := name |} in
  ∃ r, returned (createTenant input) now c = Ok (Some (toTenantData r)) ∧
       row_of e (store (after (createTenant input) now c)) = Some r ∧
       Row.entity_id r = e ∧
       Row.id r = derive_id e ∧
       Row.schema_name r = derive_schemaName e.
Proof.
  intros Hlen Hname Hstored Hfree input.
  assert (String.length (derive_id e) ≤ 248)%nat as Hid_len.
  { unfold derive_id. rewrite string_length_app. simpl. lia. }
  assert (String.length (derive_schemaName e) ≤ 255)%nat as Hschema_len.
  { unfold derive_schemaName.
    rewrite string_length_app, replace_hyphens_length. simpl. lia. }
  destruct (row_of e (store c)) as [r|] eqn:Hr.
  - exists r. unfold returned, after.
    rewrite (createTenant_existing input now c r Hr). simpl.
    split; [done|]. split; [done|].
    apply row_of_Some in Hr as [Hin He]. split; [done|].
    unfold stored_keys in Hstored. rewrite Forall_forall in Hstored.
    destruct (Hstored r Hin) as [Hid Hschema]. rewrite He in Hid, Hschema.
    rewrite varchar_fits in Hid, Hschema by lia. by simplify_eq.
  - pose proof (createTenant_new input now c) as Hnew.
    cbv zeta in Hnew. simpl in Hnew. specialize (Hnew Hr).
    rewrite exec_INSERT_fresh in Hnew.
    + eexists. unfold returned, after. rewrite Hnew. simpl.
      erewrite row_of_snoc by done. done.
    + lia.
    + lia.
    + done.
    + done.
    + simpl. apply existsb_false.
      apply row_of_None, not_registered_Forall in Hr.
      apply (Forall_impl _ _ _ (proj2 (Forall_and _ _) (conj Hstored Hr))).
      intros r [[Hid _] Hne]. unfold has_id. apply bool_decide_eq_false.
      intros Heq. rewrite Heq in Hid.
      apply varchar_cases in Hid as [Hsame|Hfull]; [|lia].
      unfold derive_id in Hsame. by apply (inj _) in Hsame.
    + by apply existsb_has_entity_id.
    + simpl. apply existsb_false.
      apply row_of_None, not_registered_Forall in Hr.
      apply (Forall_impl _ _ _ (proj2 (Forall_and _ _) (conj Hfree Hr))).
      intros r [Hsch Hne]. unfold has_schema_name. apply bool_decide_eq_false.
      intros Heq. by apply Hne, Hsch.
Qed.

Lemma tenantMiddleware_none now c :
  tenantMiddleware {| Request.x_tenant_id := None; Request.tenant_id := None |} now c
  = (Ok unbound, c).
Proof. reflexivity. Qed.

(** With no active row for the identifier the request goes on unbound, after
    at most the lookup. *)
Lemma tenantMiddleware_no_active_row req e now c :
  carries req e →
  filter (λ r, has_entity_id e r && is_active r) (tenants (store c)) = [] →
  tenantMiddleware req now c =
  (Ok unbound,
   if truthy (Some e) then sent (SELECT_active_by_entity_id e) (store c) c else c).
Proof.
  unfold carries, tenantMiddleware. intros -> Hnone.
  destruct (truthy (Some e)); simpl; [|done].
  unfold try_catch, bind, raw, exec. simpl. by rewrite Hnone.
Qed.

(** The identifier comes from the header when it has one, from the cookie
    otherwise. *)
Lemma carries_header req e :
  Request.x_tenant_id req = Some e → e ≠ "" → carries req e.
Proof.
  unfold carries, js_or, truthy. intros -> He. by rewrite bool_decide_false.
Qed.

Lemma carries_cookie req e :
  absent (Request.x_tenant_id req) → Request.tenant_id req = Some e → carries req e.
Proof.
  unfold carries, js_or. intros Hh%absent_truthy ->. by rewrite Hh.
Qed.

Lemma patch_frame_refl b r : patch_frame b r r.
Proof. by repeat split. Qed.

Lemma patch_frame_set_columns b n' st' now r :
  varchar_opt 255 (assigned (PatchBody.entityName b)) = Some n' →
  varchar_opt 50 (assigned (PatchBody.status b)) = Some st' →
  patch_frame b r (set_columns n' st' now r).
Proof.
  intros Hn Hst. unfold patch_frame. simpl. do 4 (split; [done|]).
  split; [|split].
  - intros Ha. rewrite (assigned_absent _ Ha) in Hn. by simplify_eq/=.
  - intros Ha. rewrite (assigned_absent _ Ha) in Hst. by simplify_eq/=.
  - destruct (assigned (PatchBody.entityName b)) as [s|] eqn:Hs; simplify_eq/=;
      [|done].
    destruct (varchar 255 s) as [v|] eqn:Hv; simplify_eq/=.
    intros ->. apply varchar_empty in Hv. by apply assigned_not_empty in Hs.
Qed.

(** How the handler runs for a tenant that exists. *)
Lemma PATCH_run e b now c r :
  row_of e (store c) = Some r →
  let upd := UPDATE_tenant (assigned (PatchBody.entityName b))
                           (assigned (PatchBody.status b)) e in
  let c1 := sent (SELECT_by_entity_id e) (store c) c in
  PATCH e b now c =
  if truthy (PatchBody.entityName b) || truthy (PatchBody.status b) then
    match exec now upd (store c) with
    | Ok (_, db') =>
        (match row_of e db' with
         | Some r' => Ok (send 200 (json_tenant (toTenantData r')))
         | None => Ok (send 500 (json_exception type_error))
         end,
         sent (SELECT_by_entity_id e) db' (sent upd db' c1))
    | Throw err => (Ok (send 500 (json_exception err)), sent upd (store c) c1)
    end
  else
    (Ok (send 200 (json_tenant (toTenantData r))),
     sent (SELECT_by_entity_id e) (store c) c1).
Proof.
  intros Hr upd c1. unfold PATCH, try_catch. cbv zeta.
  unfold bind at 1. unfold raw at 1.
  change (exec now (SELECT_by_entity_id e) (store c))
    with (Ok (filter (λ r, has_entity_id e r) (tenants (store c)), store c)).
  cbv iota beta. fold c1.
  unfold row_of in Hr.
  destruct (filter (λ r, has_entity_id e r) (tenants (store c))) as [|r0 rest] eqn:Hf;
    [done|]. simpl in Hr. simplify_eq.
  rewrite bool_decide_false by done.
  destruct (truthy (PatchBody.entityName b)), (truthy (PatchBody.status b)); simpl.
  all: unfold bind, raw; simpl; fold upd.
  1-3: destruct (exec now upd (store c)) as [[rows db']|err]; simpl; [|done].
  1-3: change (exec now (SELECT_by_entity_id e) db')
         with (Ok (filter (λ r, has_entity_id e r) (tenants db'), db')).
  1-3: unfold row_of; simpl; by destruct (filter _ (tenants db')).
  change (exec now (SELECT_by_entity_id e) (store c))
    with (Ok (filter (λ r, has_entity_id e r) (tenants (store c)), store c)).
  simpl. by rewrite Hf.
Qed.

(** The middleware run for a request whose identifier has an active row. *)
Lemma tenantMiddleware_active_row req e r now c :
  carries req e → e ≠ "" →
  head (filter (λ x, has_entity_id e x && is_active x) (tenants (store c))) = Some r →
  tenantMiddleware req now c =
  (Ok {| req_tenant := Some {| ReqTenant.id := Row.id r;
                               ReqTenant.entityId := Row.entity_id r;
                               ReqTenant.entityName := Row.entity_name r;
                               ReqTenant.schemaName := Row.schema_name r |};
         next_calls := 1;
         on_finish := [SET_search_path ["public"]] |},
   sent (SET_search_path [Row.schema_name r; "public"])
     (with_search_path [Row.schema_name r; "public"] (store c))
     (sent (SELECT_active_by_entity_id e) (store c) c)).
Proof.
  unfold carries. intros Hreq He Hhead.
  unfold tenantMiddleware. rewrite Hreq.
  assert (truthy (Some e) = true) as ->
    by (unfold truthy; by rewrite bool_decide_false).
  simpl. unfold try_catch, bind, raw, exec. simpl.
  by destruct (filter _ (tenants (store c))) as [|r0 rest]; simplify_eq/=.
Qed.

(** *** The operations stay within reach *)

(** The statements the code issues keep the rows derived. *)
Lemma exec_derived_rows now stmt db rows db' :
  issuable stmt → derived_rows db → exec now stmt db = Ok (rows, db') →
  derived_rows db'.
Proof.
  intros Hiss Hs Hexec. destruct stmt;
    try (unfold exec in Hexec; simplify_eq; exact Hs).
  - destruct Hiss as [[Hv _] [-> ->]].
    pose proof (valid_entityId_length _ Hv) as Hlen.
    apply exec_INSERT_inv in Hexec
      as (i' & e' & n' & s' & Hi & He & _ & Hsch &
          [(_ & _ & ->)|(_ & _ & _ & ->)]).
    + unfold update_where. apply derived_rows_fmap; [| | |done];
        intros r; by destruct (has_entity_id e' r).
    + rewrite varchar_fits in Hi, He, Hsch.
      * simplify_eq. unfold derived_rows. simpl. apply Forall_app.
        split; [exact Hs|]. by apply Forall_singleton.
      * unfold derive_schemaName.
        rewrite string_length_app, replace_hyphens_length. simpl. lia.
      * lia.
      * unfold derive_id. rewrite string_length_app. simpl. lia.
  - unfold exec in Hexec.
    destruct (varchar_opt 255 entity_name) as [n'|]; [|done].
    destruct (varchar_opt 50 status) as [st'|]; [|done].
    simplify_eq. unfold update_where. apply derived_rows_fmap; [| | |done];
      intros r; by destruct (has_entity_id entity_id r).
  - unfold exec in Hexec. simplify_eq. unfold derived_rows in *. simpl.
    apply Forall_forall. intros r [_ Hr]%list_elem_of_filter.
    by apply (proj1 (Forall_forall _ _) Hs).
Qed.

Lemma reachable_derived_rows db : reachable db → derived_rows db.
Proof.
  induction 1 as [db Hempty|now stmt db rows db' _ IH Hiss Hexec].
  - unfold derived_rows. rewrite Hempty. constructor.
  - by eapply exec_derived_rows.
Qed.

Lemma reachable_tidy db : reachable db → tidy db.
Proof. intros H. by apply derived_rows_tidy, reachable_derived_rows. Qed.

Lemma createTenant_reachable input :
  valid_entityId (CreateTenantInput.entityId input) = true →
  plain (CreateTenantInput.entityName input) = true →
  keeps reachable (createTenant input).
Proof.
  intros Hv Hn. unfold createTenant. cbv zeta.
  apply keeps_bind; [apply getTenantByEntityId_keeps|].
  intros [t|]; [apply keeps_ret|].
  apply keeps_bind.
  { apply raw_reachable. split; [|done]. by apply valid_entityId_namespace. }
  intros _. apply keeps_bind; [by apply raw_reachable|]. intros _.
  apply getTenantByEntityId_keeps.
Qed.

Lemma updateTenantStatus_reachable e s : keeps reachable (updateTenantStatus e s).
Proof.
  unfold updateTenantStatus.
  apply keeps_bind; [|intros _; apply getTenantByEntityId_keeps].
  apply raw_reachable. split; [|done]. split; [done|].
  intros x [= <-]. by destruct s.
Qed.

Lemma deleteTenant_reachable e : keeps reachable (deleteTenant e).
Proof.
  intros now c Hreach. unfold after. rewrite deleteTenant_run.
  destruct (row_of e (store c)) as [r|] eqn:Hr; [|exact Hreach]. simpl.
  apply row_of_Some in Hr as [Hin _].
  pose proof (reachable_tidy _ Hreach) as Htidy.
  apply (proj1 (Forall_forall _ _) Htidy) in Hin as [_ Hns].
  apply (reachable_exec now (DELETE_by_entity_id e)
           (with_schemas (schemas (store c) ∖ {[Row.schema_name r]}) (store c)) []);
    [|done|reflexivity].
  by apply (reachable_exec now (DROP_SCHEMA (Row.schema_name r)) (store c) []).
Qed.

Lemma tenantMiddleware_reachable req : keeps reachable (tenantMiddleware req).
Proof.
  intros now c Hreach. unfold after.
  destruct (js_or (Request.x_tenant_id req) (Request.tenant_id req)) as [e|] eqn:Hid.
  - destruct (decide (e = "")) as [->|He].
    + unfold tenantMiddleware. by rewrite Hid.
    + destruct (head (filter (λ x, has_entity_id e x && is_active x)
                        (tenants (store c)))) as [r|] eqn:Hhead.
      * rewrite (tenantMiddleware_active_row req e r now c Hid He Hhead). simpl.
        apply head_Some_elem_of, list_elem_of_filter in Hhead as [_ Hin].
        pose proof (reachable_tidy _ Hreach) as Htidy.
        apply (proj1 (Forall_forall _ _) Htidy) in Hin as [_ Hns].
        apply (reachable_exec now (SET_search_path [Row.schema_name r; "public"])
                 (store c) []); [done| |reflexivity].
        split; [|done]. simpl.
        constructor; [by right|]. constructor; [by left|]. constructor.
      * apply head_None in Hhead.
        rewrite (tenantMiddleware_no_active_row req e now c Hid Hhead).
        by destruct (truthy (Some e)).
  - unfold tenantMiddleware. by rewrite Hid.
Qed.

Lemma PATCH_reachable e b :
  plain_opt (PatchBody.entityName b) → plain_opt (PatchBody.status b) →
  keeps reachable (PATCH e b).
Proof.
  intros Hn Hst. unfold PATCH. cbv zeta.
  apply keeps_try_catch; [|intros err; apply keeps_ret].
  apply keeps_bind; [by apply raw_reachable|]. intros existing.
  destruct (bool_decide _); [apply keeps_ret|].
  apply keeps_bind.
  - destruct (bool_decide _); [|apply keeps_ret].
    apply keeps_bind; [|intros _; apply keeps_ret].
    apply raw_reachable. split; [|done]. unfold assigned.
    split; intros x Hx.
    + destruct (truthy (PatchBody.entityName b)); [by apply Hn|done].
    + destruct (truthy (PatchBody.status b)); [by apply Hst|done].
  - intros _. apply keeps_bind; [by apply raw_reachable|].
    intros [|row rest]; [apply keeps_throw|apply keeps_ret].
Qed.

Lemma listTenants_reachable : keeps reachable listTenants.
Proof.
  unfold listTenants. apply keeps_bind; [by apply raw_reachable|].
  intros rows. apply keeps_ret.
Qed.

Lemma switchToTenantSchema_reachable s :
  tenant_namespace s = true → keeps reachable (switchToTenantSchema s).
Proof.
  intros Hs. unfold switchToTenantSchema.
  apply keeps_bind; [|intros _; apply keeps_ret].
  apply raw_reachable. split; [|done]. simpl.
  constructor; [by right|]. constructor; [by left|]. constructor.
Qed.

Lemma resetToPublicSchema_reachable : keeps reachable resetToPublicSchema.
Proof.
  unfold resetToPublicSchema.
  apply keeps_bind; [|intros _; apply keeps_ret].
  apply raw_reachable. split; [|done]. simpl. constructor; [by left|]. constructor.
Qed.

Lemma POST_reachable env req :
  valid_entityId (default "" (PostRequest.entityId req)) = true →
  plain (default "" (PostRequest.entityName req)) = true →
  keeps reachable (POST env req).
Proof.
  intros Hv Hn.
  unfold POST. destruct (negb (verifyAdminKey env req)); [apply keeps_ret|].
  apply keeps_try_catch; [|intros err; apply keeps_ret].
  destruct (_ || _); [apply keeps_ret|]. cbv zeta.
  apply keeps_bind; [by apply raw_reachable|].
  intros [|row rest]; [|apply keeps_ret].
  apply keeps_bind.
  { apply raw_reachable. split; [|done]. by apply valid_entityId_namespace. }
  intros _. apply keeps_bind; [by apply raw_reachable|]. intros _.
  apply keeps_ret.
Qed.

Lemma fresh_reachable : reachable (store fresh).
Proof. by apply reachable_empty. Qed.

(** *** The properties of the specification *)

(** C1, as the code has it.  For a non-empty [entityId] of alphanumerics and
    hyphens, of at most 241 characters, and a name without U+0000 of at most
    255 bytes, in any table free of drift where no tenant registered under
    another identifier holds the derived namespace name: [create] returns a
    tenant, the lookup by [entityId] returns it afterwards, its [schemaName]
    is ["tenant_entity_"] followed by the identifier with hyphens turned into
    underscores and its [id] is ["tenant_"] followed by the identifier. *)
Theorem createTenant_then_lookup e name now now' c :
  alnum_hyphen e = true →
  (String.length e ≤ 241)%nat →
  bindable name = true →
  (String.length name ≤ 255)%nat →
  stored_keys (store c) →
  schema_free e (store c) →
  let input := {| CreateTenantInput.entityId := e; CreateTenantInput.entityName := name |} in
  ∃ t, returned (createTenant input) now c = Ok (Some t) ∧
       returned (getTenantByEntityId e) now' (after (createTenant input) now c)
         = Ok (Some t) ∧
       TenantData.schemaName t = "tenant_entity_" +:+ replace_hyphens e ∧
       TenantData.id t = "tenant_" +:+ e.
Proof.
  intros _ Hlen _ Hname Hkeys Hfree input. subst input.
  destruct (createTenant_registers e name now c Hlen Hname Hkeys Hfree)
    as (r & Hret & Hrow & _ & Hid & Hschema).
  exists (toTenantData r). split; [exact Hret|]. split; [|by split].
  unfold returned. by rewrite getTenantByEntityId_run, Hrow.
Qed.

Lemma createTenant_then_lookup_witness :
  ∃ t, returned (createTenant beta) 20 with_acme = Ok (Some t) ∧
       returned (getTenantByEntityId "beta-2") 30 (after (createTenant beta) 20 with_acme)
         = Ok (Some t) ∧
       TenantData.schemaName t = "tenant_entity_" +:+ replace_hyphens "beta-2" ∧
       TenantData.id t = "tenant_" +:+ "beta-2".
Proof.
  apply (createTenant_then_lookup "beta-2" "Beta" 20 30 with_acme).
  - reflexivity.
  - vm_compute. lia.
  - reflexivity.
  - vm_compute. lia.
  - by_evaluation.
  - by_evaluation.
Defined.

(** C1, as stated, fails in three ways, each for an [entityId] of
    alphanumerics and hyphens: [a-b] when [a_b] is registered (the unique key
    on [schema_name] refuses the row), an identifier of 242 characters (the
    derived namespace name has 256, one more than the column takes), and a
    name of 256 characters.  [create] throws, and the lookup finds nothing. *)
Lemma createTenant_refused :
  (alnum_hyphen "a-b" = true ∧
   returned (createTenant {| CreateTenantInput.entityId := "a-b";
                             CreateTenantInput.entityName := "Second" |}) 20 with_a_b
     = Throw (unique_violation "tenants_schema_name_key") ∧
   returned (getTenantByEntityId "a-b") 30
     (after (createTenant {| CreateTenantInput.entityId := "a-b";
                             CreateTenantInput.entityName := "Second" |}) 20 with_a_b)
     = Ok None) ∧
  (alnum_hyphen (replicate_char 242 "a") = true ∧
   returned (createTenant {| CreateTenantInput.entityId := replicate_char 242 "a";
                             CreateTenantInput.entityName := "Long" |}) 10 fresh
     = Throw (value_too_long 255) ∧
   returned (getTenantByEntityId (replicate_char 242 "a")) 20
     (after (createTenant {| CreateTenantInput.entityId := replicate_char 242 "a";
                             CreateTenantInput.entityName := "Long" |}) 10 fresh)
     = Ok None) ∧
  (alnum_hyphen "acme-1" = true ∧
   returned (createTenant {| CreateTenantInput.entityId := "acme-1";
                             CreateTenantInput.entityName := replicate_char 256 "x" |})
            10 fresh
     = Throw (value_too_long 255)).
Proof. vm_compute. repeat split. Qed.








(** X27. The derivation by itself: it keeps apart any two identifiers free of
    underscores, those of alphanumerics and hyphens among them; with
    underscores it does not, [a-b] and [a_b] derive one name, and the second
    of them to be created is refused by the unique key on [schema_name]. *)
Theorem derive_schemaName_collision_free :
  (∀ e1 e2, no_underscore e1 = true → no_underscore e2 = true →
            e1 ≠ e2 → derive_schemaName e1 ≠ derive_schemaName e2) ∧
  (∀ e1 e2, alnum_hyphen e1 = true → alnum_hyphen e2 = true →
            e1 ≠ e2 → derive_schemaName e1 ≠ derive_schemaName e2) ∧
  derive_schemaName "a-b" = derive_schemaName "a_b".
Proof.
  assert (∀ e1 e2, no_underscore e1 = true → no_underscore e2 = true →
            e1 ≠ e2 → derive_schemaName e1 ≠ derive_schemaName e2) as Hinj.
  { intros e1 e2 H1 H2 Hne Heq. apply Hne.
    unfold derive_schemaName in Heq. apply (inj _) in Heq.
    by apply replace_hyphens_inj. }
  split; [exact Hinj|]. split; [|reflexivity].
  intros e1 e2 H1 H2. apply Hinj; by apply alnum_hyphen_no_underscore.
Qed.

Lemma derive_schemaName_collision_free_witness :
  derive_schemaName "acme-1" ≠ derive_schemaName "acme-2" ∧
  derive_schemaName "a-b" ≠ derive_schemaName "a-c".
Proof.
  split.
  - apply (proj1 derive_schemaName_collision_free "acme-1" "acme-2");
      [reflexivity|reflexivity|discriminate].
  - apply (proj1 (proj2 derive_schemaName_collision_free) "a-b" "a-c");
      [reflexivity|reflexivity|discriminate].
Defined.

(** C4. Once [updateStatus(e, 'inactive')] has run, a request whose tenant
    identifier is [e] is handled as a request without one: [req.tenant] stays
    unset, no [SET search_path] goes out, the database and its [search_path]
    are untouched; the lookup by [entityId] still returns the row, now
    inactive. *)
Theorem inactive_tenant_is_not_bound e t req now now1 c :
  returned (getTenantByEntityId e) now c = Ok (Some t) →
  carries req e →
  let c1 := after (updateTenantStatus e inactive) now c in
  returned (tenantMiddleware req) now1 c1 = Ok unbound ∧
  returned (tenantMiddleware req) now1 c1 =
    returned (tenantMiddleware {| Request.x_tenant_id := None;
                                  Request.tenant_id := None |}) now1 c1 ∧
  store (after (tenantMiddleware req) now1 c1) = store c1 ∧
  Forall (λ stmt, is_SET_search_path stmt = false)
         (drop (length (issued c1)) (issued (after (tenantMiddleware req) now1 c1))) ∧
  returned (getTenantByEntityId e) now1 c1 = Ok (Some (with_status "inactive" now t)).
Proof.
  intros Ht Hreq c1.
  pose proof (updateTenantStatus_existing e inactive t now c Ht) as Hret.
  assert (store c1 =
          with_tenants (update_where e (set_columns None (Some "inactive") now)
                          (tenants (store c))) (store c)) as Hstore.
  { unfold c1, after. by rewrite updateTenantStatus_run. }
  assert (tenantMiddleware req now1 c1 =
          (Ok unbound,
           if truthy (Some e) then sent (SELECT_active_by_entity_id e) (store c1) c1
           else c1)) as Hmw.
  { apply tenantMiddleware_no_active_row; [done|].
    rewrite Hstore. simpl. apply no_active_after_inactive. }
  unfold returned, after. rewrite Hmw, tenantMiddleware_none.
  generalize (truthy (Some e)). intros b. simpl.
  split; [done|]. split; [done|]. split; [by destruct b|]. split.
  - destruct b; simpl.
    + rewrite drop_app_length. by repeat constructor.
    + rewrite drop_all. constructor.
  - unfold returned in Hret.
    unfold c1, after. rewrite updateTenantStatus_run in Hret |- *.
    cbv zeta in Hret |- *. simpl in Hret. rewrite getTenantByEntityId_run. simpl.
    by injection Hret as ->.
Qed.

Lemma inactive_tenant_is_not_bound_witness :
  returned (tenantMiddleware {| Request.x_tenant_id := None;
                                Request.tenant_id := Some "acme-1" |}) 30
           (after (updateTenantStatus "acme-1" inactive) 20 with_acme) = Ok unbound ∧
  search_path (store (after (tenantMiddleware
                               {| Request.x_tenant_id := None;
                                  Request.tenant_id := Some "acme-1" |}) 30
                            (after (updateTenantStatus "acme-1" inactive) 20 with_acme)))
  = ["public"].
Proof.
  pose proof (inactive_tenant_is_not_bound "acme-1"
    {| TenantData.id := "tenant_acme-1";
       TenantData.entityId := "acme-1";
       TenantData.entityName := "Acme Co";
       TenantData.schemaName := "tenant_entity_acme_1";
       TenantData.status := "active";
       TenantData.createdAt := 10;
       TenantData.updatedAt := 10 |}
    {| Request.x_tenant_id := None; Request.tenant_id := Some "acme-1" |}
    20 30 with_acme eq_refl eq_refl) as (H1 & _ & H3 & _).
  split; [exact H1|]. rewrite H3. reflexivity.
Defined.

(** X26. [delete] within the bounds.  For an existing tenant whose [entityId]
    can be bound and whose stored [schemaName] is the name of a tenant's
    namespace, [delete] returns true; afterwards [list()] holds no tenant with
    that [entityId] and the lookup returns absent; the namespace named by the
    stored [schemaName] is gone, and the statements went out in the order
    lookup, [DROP SCHEMA], [DELETE].  (A stored [schemaName] that holds a
    double quote is beyond the bounds: pasted as it is, it breaks the
    [DROP SCHEMA].) *)
Theorem deleteTenant_existing e t now c :
  bindable e = true →
  tenant_namespace (TenantData.schemaName t) = true →
  returned (getTenantByEntityId e) now c = Ok (Some t) →
  returned (deleteTenant e) now c = Ok true ∧
  (∀ now', ∃ l, returned listTenants now' (after (deleteTenant e) now c) = Ok l ∧
                Forall (λ t', TenantData.entityId t' ≠ e) l) ∧
  (∀ now', returned (getTenantByEntityId e) now' (after (deleteTenant e) now c) = Ok None) ∧
  (schemas (store (after (deleteTenant e) now c)) =
     schemas (store c) ∖ {[ TenantData.schemaName t ]}) ∧
  (TenantData.schemaName t ∉ schemas (store (after (deleteTenant e) now c))) ∧
  issued (after (deleteTenant e) now c) =
    issued c ++ [SELECT_by_entity_id e;
                 DROP_SCHEMA (TenantData.schemaName t);
                 DELETE_by_entity_id e].
Proof.
  intros _ _.
  unfold returned, after. rewrite getTenantByEntityId_run, deleteTenant_run. simpl.
  intros [= Ht]. destruct (row_of e (store c)) as [r|]; simplify_eq/=.
  assert (Forall (λ r', Row.entity_id r' ≠ e)
            (filter (λ r', negb (has_entity_id e r')) (tenants (store c)))) as Hgone.
  { apply Forall_forall. intros r' Hr'. apply list_elem_of_filter in Hr' as [Hne _].
    unfold has_entity_id in Hne. intros He.
    by rewrite (bool_decide_true _ He) in Hne. }
  split; [done|]. split; [|split; [|split; [done|split]]].
  - intros now'. eexists. split; [reflexivity|]. simpl.
    apply Forall_fmap. unfold compose. simpl.
    apply Forall_forall. intros r' Hr'.
    rewrite merge_sort_Permutation in Hr'.
    by apply (proj1 (Forall_forall _ _) Hgone).
  - intros now'. rewrite getTenantByEntityId_run. simpl.
    assert (row_of e (with_tenants
              (filter (λ r', negb (has_entity_id e r')) (tenants (store c)))
              (with_schemas (schemas (store c) ∖ {[Row.schema_name r]}) (store c)))
            = None) as ->; [|done].
    apply row_of_None, not_registered_Forall. exact Hgone.
  - rewrite elem_of_difference, elem_of_singleton. by intros [_ Hne].
  - by rewrite <- !app_assoc.
Qed.

Lemma deleteTenant_existing_witness :
  returned (deleteTenant "acme-1") 20 with_acme = Ok true ∧
  issued (after (deleteTenant "acme-1") 20 with_acme) =
    issued with_acme ++ [SELECT_by_entity_id "acme-1";
                         DROP_SCHEMA "tenant_entity_acme_1";
                         DELETE_by_entity_id "acme-1"].
Proof.
  pose proof (deleteTenant_existing "acme-1"
    {| TenantData.id := "tenant_acme-1";
       TenantData.entityId := "acme-1";
       TenantData.entityName := "Acme Co";
       TenantData.schemaName := "tenant_entity_acme_1";
       TenantData.status := "active";
       TenantData.createdAt := 10;
       TenantData.updatedAt := 10 |} 20 with_acme eq_refl eq_refl eq_refl) as H.
  split; [apply H|apply H].
Defined.





(** C8. The tenant [create] returns is the one the lookup by its
    [schemaName] returns afterwards, field by field ([updatedAt] included,
    though only the other fields are asked for). *)
Theorem created_tenant_by_schemaName input t now now' c :
  unique_keys (store c) →
  returned (createTenant input) now c = Ok (Some t) →
  ∃ t', returned (getTenantBySchemaName (TenantData.schemaName t)) now'
                 (after (createTenant input) now c) = Ok (Some t') ∧
        same_but_updatedAt t' t ∧
        TenantData.updatedAt t' = TenantData.updatedAt t.
Proof.
  intros Hu Hcreated. exists t. split; [|by repeat split].
  apply (getTenantBySchemaName_agrees (CreateTenantInput.entityId input) t now').
  - by apply createTenant_unique_keys.
  - unfold returned. rewrite getTenantByEntityId_run. simpl.
    by rewrite (createTenant_returns_stored _ _ _ _ Hcreated).
Qed.

Lemma created_tenant_by_schemaName_witness :
  ∃ t', returned (getTenantBySchemaName "tenant_entity_acme_1") 20
                 (after (createTenant acme) 10 fresh) = Ok (Some t') ∧
        same_but_updatedAt t'
          {| TenantData.id := "tenant_acme-1";
             TenantData.entityId := "acme-1";
             TenantData.entityName := "Acme Co";
             TenantData.schemaName := "tenant_entity_acme_1";
             TenantData.status := "active";
             TenantData.createdAt := 10;
             TenantData.updatedAt := 10 |} ∧
        TenantData.updatedAt t' = 10.
Proof.
  refine (created_tenant_by_schemaName acme _ 10 20 fresh _ eq_refl).
  repeat split; apply NoDup_nil_2.
Defined.

(** C9. [list()] returns every tenant, none left out or repeated, each with
    the values of its row, and a tenant never comes after one created before
    it; the database is left as it is. *)
Theorem listTenants_all_newest_first now c :
  ∃ l, returned listTenants now c = Ok l ∧
       l ≡ₚ (λ r, {| TenantData.id := Row.id r;
                     TenantData.entityId := Row.entity_id r;
                     TenantData.entityName := Row.entity_name r;
                     TenantData.schemaName := Row.schema_name r;
                     TenantData.status := Row.status r;
                     TenantData.createdAt := Row.created_at r;
                     TenantData.updatedAt := Row.updated_at r |})
              <$> tenants (store c) ∧
       StronglySorted not_older l ∧
       length l = length (tenants (store c)) ∧
       store (after listTenants now c) = store c.
Proof.
  exists (toTenantData <$> merge_sort newest_first (tenants (store c))).
  unfold returned, after. rewrite listTenants_run. simpl.
  split; [done|]. split; [|split; [|split; [|done]]].
  - change (toTenantData <$> merge_sort newest_first (tenants (store c))
            ≡ₚ toTenantData <$> tenants (store c)).
    by rewrite merge_sort_Permutation.
  - apply StronglySorted_fmap with (R1 := newest_first).
    + intros r1 r2 H. exact H.
    + apply StronglySorted_merge_sort; apply _.
  - by rewrite length_fmap, merge_sort_Permutation.
Qed.

(** The two tenants of [with_acme_beta], the later one first. *)
Lemma listTenants_all_newest_first_witness :
  ∃ l, returned listTenants 30 with_acme_beta = Ok l ∧
       l ≡ₚ [ {| TenantData.id := "tenant_acme-1";
                 TenantData.entityId := "acme-1";
                 TenantData.entityName := "Acme Co";
                 TenantData.schemaName := "tenant_entity_acme_1";
                 TenantData.status := "active";
                 TenantData.createdAt := 10;
                 TenantData.updatedAt := 10 |};
              {| TenantData.id := "tenant_beta-2";
                 TenantData.entityId := "beta-2";
                 TenantData.entityName := "Beta";
                 TenantData.schemaName := "tenant_entity_beta_2";
                 TenantData.status := "active";
                 TenantData.createdAt := 20;
                 TenantData.updatedAt := 20 |} ] ∧
       StronglySorted not_older l ∧
       length l = 2%nat ∧
       store (after listTenants 30 with_acme_beta) = store with_acme_beta.
Proof. exact (listTenants_all_newest_first 30 with_acme_beta). Defined.

(** C10. A PATCH of an existing tenant leaves every row's [id], [entityId],
    [schemaName] and [createdAt] as they are, and [entityName] and [status]
    too when the body omits the field or gives the empty string; no
    [entityName] becomes empty; namespaces and [search_path] are untouched.
    With neither field supplied no [UPDATE] goes out, the database is as it
    was and the response is the tenant as stored. *)
Theorem PATCH_frame e b now c :
  registered e (store c) →
  let c' := after (PATCH e b) now c in
  Forall2 (patch_frame b) (tenants (store c)) (tenants (store c')) ∧
  schemas (store c') = schemas (store c) ∧
  search_path (store c') = search_path (store c) ∧
  (absent (PatchBody.entityName b) → absent (PatchBody.status b) →
   store c' = store c ∧
   issued c' = issued c ++ [SELECT_by_entity_id e; SELECT_by_entity_id e] ∧
   ∃ t, returned (getTenantByEntityId e) now c = Ok (Some t) ∧
        returned (PATCH e b) now c = Ok (send 200 (json_tenant t))).
Proof.
  intros [r Hr]%registered_row_of c'. subst c'. unfold returned, after.
  rewrite (PATCH_run e b now c r Hr), getTenantByEntityId_run, Hr. cbv zeta.
  destruct (truthy (PatchBody.entityName b) || truthy (PatchBody.status b)) eqn:Hany.
  - assert (¬ (absent (PatchBody.entityName b) ∧ absent (PatchBody.status b))) as Hsome.
    { rewrite !absent_truthy. intros [H1 H2]. by rewrite H1, H2 in Hany. }
    unfold exec.
    destruct (varchar_opt 255 (assigned (PatchBody.entityName b))) as [n'|] eqn:Hn;
      [destruct (varchar_opt 50 (assigned (PatchBody.status b))) as [st'|] eqn:Hst|];
      simpl.
    + split; [|by repeat split; try tauto].
      apply update_where_frame; [apply patch_frame_refl|].
      intros r0. by apply patch_frame_set_columns.
    + split; [|by repeat split; try tauto].
      apply Forall2_same, patch_frame_refl.
    + split; [|by repeat split; try tauto].
      apply Forall2_same, patch_frame_refl.
  - simpl. split; [apply Forall2_same, patch_frame_refl|].
    do 2 (split; [done|]). intros _ _. split; [done|]. split.
    + by rewrite <- app_assoc.
    + by exists (toTenantData r).
Qed.

Lemma PATCH_frame_witness :
  store (after (PATCH "acme-1" {| PatchBody.entityName := Some "";
                                  PatchBody.status := None |}) 20 with_acme)
    = store with_acme ∧
  returned (PATCH "acme-1" {| PatchBody.entityName := Some "";
                              PatchBody.status := None |}) 20 with_acme
    = Ok (send 200 (json_tenant
            {| TenantData.id := "tenant_acme-1";
               TenantData.entityId := "acme-1";
               TenantData.entityName := "Acme Co";
               TenantData.schemaName := "tenant_entity_acme_1";
               TenantData.status := "active";
               TenantData.createdAt := 10;
               TenantData.updatedAt := 10 |})).
Proof.
  assert (registered "acme-1" (store with_acme)) as Hreg
    by by_evaluation.
  destruct (PATCH_frame "acme-1" {| PatchBody.entityName := Some "";
                                    PatchBody.status := None |} 20 with_acme Hreg)
    as (_ & _ & _ & Hnone).
  destruct (Hnone (or_intror eq_refl) (or_introl eq_refl)) as (Hstore & _ & t & Ht & Hresp).
  split; [exact Hstore|]. rewrite Hresp. vm_compute in Ht. by simplify_eq.
Defined.

(** *** Further properties *)

(** X1. In every database the code brings about within the bounds the three
    keys are unique and there is no drift: every tenant is registered under a
    valid [entityId] and holds exactly the [id] and the namespace name derived
    from it, a name the server keeps as it is. *)
Theorem reachable_keys db :
  reachable db →
  unique_keys db ∧ tidy db ∧
  ∀ r, r ∈ tenants db →
       valid_entityId (Row.entity_id r) = true ∧
       Row.id r = derive_id (Row.entity_id r) ∧
       Row.schema_name r = derive_schemaName (Row.entity_id r).
Proof.
  intros Hreach. split; [by apply reachable_unique_keys|].
  split; [by apply reachable_tidy|].
  apply reachable_derived_rows in Hreach.
  unfold derived_rows in Hreach. by rewrite Forall_forall in Hreach.
Qed.

Lemma reachable_keys_witness :
  unique_keys (store with_acme_beta) ∧ tidy (store with_acme_beta) ∧
  ∀ r, r ∈ tenants (store with_acme_beta) →
       valid_entityId (Row.entity_id r) = true ∧
       Row.id r = derive_id (Row.entity_id r) ∧
       Row.schema_name r = derive_schemaName (Row.entity_id r).
Proof.
  apply (reachable_keys (store with_acme_beta)).
  apply createTenant_reachable; [reflexivity|reflexivity|].
  apply createTenant_reachable; [reflexivity|reflexivity|].
  apply fresh_reachable.
Defined.

(** X28. The operations stay within reach: from a database the code has
    brought about within the bounds, [create] and [POST /tenants] for a valid
    [entityId] and a plain name, [updateStatus], [delete], [list], the
    middleware whatever the request, a PATCH of plain values and the reset of
    the [search_path] lead to such a database again; so the properties of
    these databases hold after any sequence of them, starting from the empty
    table. *)
Theorem operations_within_reach :
  reachable (store fresh) ∧
  (∀ input, valid_entityId (CreateTenantInput.entityId input) = true →
            plain (CreateTenantInput.entityName input) = true →
            keeps reachable (createTenant input)) ∧
  (∀ env req, valid_entityId (default "" (PostRequest.entityId req)) = true →
              plain (default "" (PostRequest.entityName req)) = true →
              keeps reachable (POST env req)) ∧
  (∀ e s, keeps reachable (updateTenantStatus e s)) ∧
  (∀ e, keeps reachable (deleteTenant e)) ∧
  keeps reachable listTenants ∧
  (∀ req, keeps reachable (tenantMiddleware req)) ∧
  (∀ e b, plain_opt (PatchBody.entityName b) → plain_opt (PatchBody.status b) →
          keeps reachable (PATCH e b)) ∧
  keeps reachable resetToPublicSchema.
Proof.
  split; [apply fresh_reachable|].
  split; [apply createTenant_reachable|].
  split; [apply POST_reachable|].
  split; [apply updateTenantStatus_reachable|].
  split; [apply deleteTenant_reachable|].
  split; [apply listTenants_reachable|].
  split; [apply tenantMiddleware_reachable|].
  split; [apply PATCH_reachable|].
  apply resetToPublicSchema_reachable.
Qed.

Lemma operations_within_reach_witness :
  reachable (store (after (deleteTenant "acme-1") 30 with_acme_beta)).
Proof.
  apply (proj1 (proj2 (proj2 (proj2 (proj2 operations_within_reach))))).
  apply (proj1 (proj2 operations_within_reach) beta); [reflexivity|reflexivity|].
  apply (proj1 (proj2 operations_within_reach) acme); [reflexivity|reflexivity|].
  apply (proj1 operations_within_reach).
Defined.

Lemma head_filter_and (p q : Row.t → bool) rows r :
  head (filter (λ x, p x) rows) = Some r → q r = true →
  head (filter (λ x, p x && q x) rows) = Some r.
Proof.
  induction rows as [|x rows IH]; [done|]. rewrite !filter_cons.
  destruct (p x) eqn:Hp; simpl.
  - intros [= ->] Hq. by rewrite Hq.
  - apply IH.
Qed.

(** X2. A request whose tenant identifier is that of an active tenant is
    bound to it: [req.tenant] carries the row's [id], [entityId], [entityName]
    and [schemaName], the [search_path] becomes the tenant's namespace
    followed by [public], [next()] is called once and the reset to [public]
    is registered for the end of the response; the table is not touched.
    This within the bounds: the identifier can be bound and the stored
    [schemaName] is the name of a tenant's namespace. *)
Theorem tenantMiddleware_binds_active req e t now c :
  bindable e = true →
  tenant_namespace (TenantData.schemaName t) = true →
  carries req e → e ≠ "" →
  returned (getTenantByEntityId e) now c = Ok (Some t) →
  TenantData.status t = "active" →
  returned (tenantMiddleware req) now c =
    Ok {| req_tenant := Some {| ReqTenant.id := TenantData.id t;
                                ReqTenant.entityId := TenantData.entityId t;
                                ReqTenant.entityName := TenantData.entityName t;
                                ReqTenant.schemaName := TenantData.schemaName t |};
          next_calls := 1;
          on_finish := [SET_search_path ["public"]] |} ∧
  search_path (store (after (tenantMiddleware req) now c)) =
    [TenantData.schemaName t; "public"] ∧
  tenants (store (after (tenantMiddleware req) now c)) = tenants (store c) ∧
  issued (after (tenantMiddleware req) now c) =
    issued c ++ [SELECT_active_by_entity_id e;
                 SET_search_path [TenantData.schemaName t; "public"]].
Proof.
  unfold carries, returned, after. intros _ _ Hreq He.
  rewrite getTenantByEntityId_run. simpl. intros [= Ht] Hactive.
  destruct (row_of e (store c)) as [r|] eqn:Hr; simplify_eq/=.
  unfold tenantMiddleware. rewrite Hreq.
  assert (truthy (Some e) = true) as ->.
  { unfold truthy. by rewrite bool_decide_false. }
  simpl. unfold try_catch, bind, raw, exec. simpl.
  assert (head (filter (λ x, has_entity_id e x && is_active x) (tenants (store c)))
          = Some r) as Hhead.
  { apply head_filter_and; [exact Hr|].
    unfold is_active. by apply bool_decide_eq_true. }
  destruct (filter _ (tenants (store c))) as [|r0 rest]; simplify_eq/=.
  repeat split. by rewrite <- app_assoc.
Qed.

Lemma tenantMiddleware_binds_active_witness :
  search_path (store (after (tenantMiddleware
                               {| Request.x_tenant_id := Some "acme-1";
                                  Request.tenant_id := None |}) 20 with_acme))
  = ["tenant_entity_acme_1"; "public"].
Proof.
  refine (proj1 (proj2 (tenantMiddleware_binds_active
    {| Request.x_tenant_id := Some "acme-1"; Request.tenant_id := None |}
    "acme-1"
    {| TenantData.id := "tenant_acme-1";
       TenantData.entityId := "acme-1";
       TenantData.entityName := "Acme Co";
       TenantData.schemaName := "tenant_entity_acme_1";
       TenantData.status := "active";
       TenantData.createdAt := 10;
       TenantData.updatedAt := 10 |} 20 with_acme eq_refl eq_refl eq_refl _
    eq_refl eq_refl))).
  discriminate.
Defined.

(** X3. [POST /tenants] refuses a request whose admin key is not the expected
    one with 401, and one with the right key whose [entityId] or [entityName]
    is missing or empty with 400; in both cases no statement is issued. *)
Theorem POST_rejects env req now c :
  (verifyAdminKey env req = false →
     POST env req now c = (Ok (send 401 (json_error "Invalid admin key")), c)) ∧
  (verifyAdminKey env req = true →
     absent (PostRequest.entityId req) ∨ absent (PostRequest.entityName req) →
     POST env req now c =
       (Ok (send 400 (json_error "entityId and entityName are required")), c)).
Proof.
  unfold POST. split.
  - by intros ->.
  - intros -> Habsent. simpl. unfold try_catch.
    assert (negb (truthy (PostRequest.entityId req))
            || negb (truthy (PostRequest.entityName req)) = true) as ->; [|done].
    destruct Habsent as [H%absent_truthy|H%absent_truthy]; rewrite H; simpl;
      [done|apply orb_true_r].
Qed.

Lemma POST_rejects_witness :
  POST None {| PostRequest.x_admin_key := Some "guess";
               PostRequest.entityId := Some "acme-1";
               PostRequest.entityName := Some "Acme Co" |} 10 fresh
    = (Ok (send 401 (json_error "Invalid admin key")), fresh) ∧
  POST None {| PostRequest.x_admin_key := Some "beezy-sso-shared-secret";
               PostRequest.entityId := Some "";
               PostRequest.entityName := Some "Acme Co" |} 10 fresh
    = (Ok (send 400 (json_error "entityId and entityName are required")), fresh).
Proof.
  split.
  - apply (proj1 (POST_rejects None _ 10 fresh)). reflexivity.
  - apply (proj2 (POST_rejects None _ 10 fresh)); [reflexivity|].
    left. by right.
Defined.






Lemma string_drop_forallb p n s :
  string_forallb p s = true → string_forallb p (string_drop n s) = true.
Proof.
  revert s. induction n as [|n IH]; intros [|a s]; simpl; try done.
  intros [_ Hs]%andb_true_iff. by apply IH.
Qed.

Lemma string_drop_empty n s : string_drop n s = "" → (String.length s ≤ n)%nat.
Proof.
  revert s. induction n as [|n IH]; intros [|a s]; simpl; try done; [lia|].
  intros H%IH. lia.
Qed.

(** A string of alphanumerics and hyphens has no spaces to cut off. *)
Lemma all_spaces_alnum_hyphen s :
  string_forallb (λ c, is_alnum c || bool_decide (c = "-"%char)) s = true →
  all_spaces s = true → s = "".
Proof.
  destruct s as [|a s]; [done|]. simpl.
  intros [Ha _]%andb_true_iff [Hsp _]%andb_true_iff.
  apply bool_decide_eq_true in Hsp. subst a. by vm_compute in Ha.
Qed.

(** The namespace name derived from such an identifier is stored whole or not
    at all. *)
Lemma varchar_prefix_alnum_hyphen n p e k :
  (String.length p ≤ n)%nat →
  string_forallb (λ c, is_alnum c || bool_decide (c = "-"%char)) e = true →
  varchar n (p +:+ replace_hyphens e) = Some k → k = p +:+ replace_hyphens e.
Proof.
  intros Hp Halnum. rewrite varchar_spec.
  replace n with (String.length p + (n - String.length p))%nat by lia.
  rewrite string_drop_app, string_take_app, <- replace_hyphens_drop,
    all_spaces_replace_hyphens.
  destruct (all_spaces (string_drop _ e)) eqn:Hsp; [|done]. intros [= <-].
  apply all_spaces_alnum_hyphen in Hsp; [|by apply string_drop_forallb].
  apply string_drop_empty in Hsp.
  by rewrite <- replace_hyphens_take, string_take_all.
Qed.

Lemma varchar_derive_schemaName_alnum e k :
  alnum_hyphen e = true →
  varchar 255 (derive_schemaName e) = Some k → k = derive_schemaName e.
Proof.
  unfold alnum_hyphen. intros [_ Halnum]%andb_true_iff.
  apply varchar_prefix_alnum_hyphen; [simpl; lia|done].
Qed.

(** X5. In a table free of drift that only holds identifiers of
    alphanumerics and hyphens nothing stands in the way of a further one: for
    such an [entityId] of at most 241 characters and a name without U+0000 of
    at most 255 bytes, [create] followed by the lookup returns the tenant with
    the derived [schemaName] and [id]. *)
Theorem createTenant_among_alnum_hyphen e name now now' c :
  alnum_hyphen e = true →
  (String.length e ≤ 241)%nat →
  bindable name = true →
  (String.length name ≤ 255)%nat →
  stored_keys (store c) →
  Forall (λ r, alnum_hyphen (Row.entity_id r) = true) (tenants (store c)) →
  let input := {| CreateTenantInput.entityId := e; CreateTenantInput.entityName := name |} in
  ∃ t, returned (createTenant input) now c = Ok (Some t) ∧
       returned (getTenantByEntityId e) now' (after (createTenant input) now c)
         = Ok (Some t) ∧
       TenantData.schemaName t = "tenant_entity_" +:+ replace_hyphens e ∧
       TenantData.id t = "tenant_" +:+ e.
Proof.
  intros He Hlen _ Hname Hreach Hall input. subst input.
  assert (schema_free e (store c)) as Hfree.
  { unfold schema_free.
    apply (Forall_impl _ _ _ (proj2 (Forall_and _ _) (conj Hreach Hall))).
    intros r [[_ Hschema] Hr] Heq. rewrite Heq in Hschema.
    apply varchar_derive_schemaName_alnum in Hschema; [|done].
    unfold derive_schemaName in Hschema. apply (inj _) in Hschema.
    symmetry. apply replace_hyphens_inj; by try apply alnum_hyphen_no_underscore. }
  destruct (createTenant_registers e name now c Hlen Hname Hreach Hfree)
    as (r & Hret & Hrow & _ & Hid & Hschema).
  exists (toTenantData r). split; [exact Hret|]. split; [|by split].
  unfold returned. by rewrite getTenantByEntityId_run, Hrow.
Qed.

Lemma createTenant_among_alnum_hyphen_witness :
  ∃ t, returned (createTenant {| CreateTenantInput.entityId := "beta-2";
                                 CreateTenantInput.entityName := "Beta" |}) 20 with_acme
         = Ok (Some t) ∧
       returned (getTenantByEntityId "beta-2") 30
         (after (createTenant {| CreateTenantInput.entityId := "beta-2";
                                 CreateTenantInput.entityName := "Beta" |}) 20 with_acme)
         = Ok (Some t) ∧
       TenantData.schemaName t = "tenant_entity_" +:+ replace_hyphens "beta-2" ∧
       TenantData.id t = "tenant_" +:+ "beta-2".
Proof.
  apply (createTenant_among_alnum_hyphen "beta-2" "Beta" 20 30 with_acme).
  - reflexivity.
  - vm_compute. lia.
  - reflexivity.
  - vm_compute. lia.
  - by_evaluation.
  - by_evaluation.
Defined.

(** X6. [switchToTenantSchema], given the name of a tenant's namespace, puts
    it in front of [public] on the [search_path], [resetToPublicSchema] leaves
    [public] alone on it; neither touches the table or the namespaces, and a
    reset after a switch undoes it. *)
Theorem schema_switch_and_reset s now now' c :
  tenant_namespace s = true →
  returned (switchToTenantSchema s) now c = Ok () ∧
  store (after (switchToTenantSchema s) now c) = with_search_path [s; "public"] (store c) ∧
  returned resetToPublicSchema now c = Ok () ∧
  store (after resetToPublicSchema now c) = with_search_path ["public"] (store c) ∧
  store (after resetToPublicSchema now' (after (switchToTenantSchema s) now c)) =
    with_search_path ["public"] (store c).
Proof.
  intros _.
  unfold returned, after, switchToTenantSchema, resetToPublicSchema, bind, raw, exec.
  simpl. by repeat split.
Qed.

Lemma schema_switch_and_reset_witness :
  search_path (store (after (switchToTenantSchema "tenant_entity_acme_1") 20 with_acme))
    = ["tenant_entity_acme_1"; "public"] ∧
  search_path (store (after resetToPublicSchema 30
                        (after (switchToTenantSchema "tenant_entity_acme_1") 20 with_acme)))
    = ["public"].
Proof.
  destruct (schema_switch_and_reset "tenant_entity_acme_1" 20 30 with_acme eq_refl)
    as (_ & H1 & _ & _ & H2).
  rewrite H1, H2. by split.
Defined.

(** *** The service, beyond the specification *)





(** What [create] does when no row matches its [entityId]: the row the
    [INSERT] appends, or the error it is refused with. *)
Lemma createTenant_new_cases input now c :
  let e := CreateTenantInput.entityId input in
  (String.length e ≤ 255)%nat →
  row_of e (store c) = None →
  (∃ err, returned (createTenant input) now c = Throw err ∧
          store (after (createTenant input) now c) =
            with_schemas (schemas (store c) ∪ {[ derive_schemaName e ]}) (store c)) ∨
  (∃ r, returned (createTenant input) now c = Ok (Some (toTenantData r)) ∧
        store (after (createTenant input) now c) =
          with_tenants (tenants (store c) ++ [r])
            (with_schemas (schemas (store c) ∪ {[ derive_schemaName e ]}) (store c)) ∧
        Row.entity_id r = e ∧ Row.status r = "active" ∧
        Row.created_at r = now ∧ Row.updated_at r = now).
Proof.
  intros e Hlen Hr. unfold returned, after.
  pose proof (createTenant_new input now c Hr) as Hnew. cbv zeta in Hnew.
  rewrite Hnew. clear Hnew. fold e.
  destruct (exec now _ _) as [[rows db']|err] eqn:Hexec; simpl; [|left; eauto].
  right. apply exec_INSERT_inv in Hexec
    as (i' & e' & n' & s' & _ & He & _ & _ & [(_ & Hex & _)|(_ & _ & _ & ->)]).
  - rewrite varchar_fits in He by done. simplify_eq. simpl in Hex.
    by rewrite (existsb_has_entity_id _ _ Hr) in Hex.
  - rewrite varchar_fits in He by done. simplify_eq.
    eexists. split; [|by repeat split].
    by erewrite row_of_snoc.
Qed.

(** X8. [create] never changes a row that is there: for a valid [entityId]
    and a plain name a registered tenant leaves the database as it is, and
    otherwise the table is kept or gets one row at its end, for that
    [entityId], active and stamped with the time of the call; the namespace
    derived for it exists from then on. *)
Theorem createTenant_only_appends input now c :
  let e := CreateTenantInput.entityId input in
  valid_entityId e = true →
  plain (CreateTenantInput.entityName input) = true →
  (registered e (store c) → store (after (createTenant input) now c) = store c) ∧
  (¬ registered e (store c) →
     derive_schemaName e ∈ schemas (store (after (createTenant input) now c)) ∧
     (tenants (store (after (createTenant input) now c)) = tenants (store c) ∨
      ∃ r, tenants (store (after (createTenant input) now c)) = tenants (store c) ++ [r] ∧
           returned (createTenant input) now c = Ok (Some (toTenantData r)) ∧
           Row.entity_id r = e ∧ Row.status r = "active" ∧
           Row.created_at r = now ∧ Row.updated_at r = now)).
Proof.
  intros e Hlen%valid_entityId_length _.
  assert (String.length e ≤ 255)%nat as Hfits by lia. clear Hlen.
  rename Hfits into Hlen. split.
  - intros [r Hr]%registered_row_of. unfold after.
    by rewrite (createTenant_existing input now c r Hr).
  - intros Hr%row_of_None.
    destruct (createTenant_new_cases input now c Hlen Hr)
      as [(err & _ & ->)|(r & Hret & -> & Hrest)]; simpl.
    + split; [apply elem_of_union; right; by apply elem_of_singleton|by left].
    + split; [apply elem_of_union; right; by apply elem_of_singleton|].
      right. exists r. by repeat split; try apply Hrest.
Qed.

Lemma createTenant_only_appends_witness :
  store (after (createTenant {| CreateTenantInput.entityId := "acme-1";
                                CreateTenantInput.entityName := "Renamed" |}) 20 with_acme)
    = store with_acme ∧
  derive_schemaName "beta-2" ∈
    schemas (store (after (createTenant {| CreateTenantInput.entityId := "beta-2";
                                           CreateTenantInput.entityName := "Beta" |})
                          20 with_acme)).
Proof.
  split.
  - apply (proj1 (createTenant_only_appends
                    {| CreateTenantInput.entityId := "acme-1";
                       CreateTenantInput.entityName := "Renamed" |} 20 with_acme
                    eq_refl eq_refl)).
    by_evaluation.
  - apply (proj2 (createTenant_only_appends
                    {| CreateTenantInput.entityId := "beta-2";
                       CreateTenantInput.entityName := "Beta" |} 20 with_acme
                    eq_refl eq_refl)).
    by_evaluation.
Defined.

(** X9. A [create] for a valid [entityId] and a plain name that throws has
    written no row but has provisioned the namespace: the table is as before,
    no tenant matches the [entityId], and the derived namespace exists without
    a row that owns it under that [entityId]. *)
Theorem createTenant_refused_leaves_namespace input err now c :
  let e := CreateTenantInput.entityId input in
  valid_entityId e = true →
  plain (CreateTenantInput.entityName input) = true →
  returned (createTenant input) now c = Throw err →
  tenants (store (after (createTenant input) now c)) = tenants (store c) ∧
  ¬ registered e (store (after (createTenant input) now c)) ∧
  derive_schemaName e ∈ schemas (store (after (createTenant input) now c)) ∧
  issued (after (createTenant input) now c) =
    issued c ++ [SELECT_by_entity_id e; CREATE_SCHEMA (derive_schemaName e);
                 INSERT_tenant true (derive_id e) e (CreateTenantInput.entityName input)
                   (derive_schemaName e)].
Proof.
  intros e _ _. unfold returned, after.
  destruct (row_of e (store c)) as [r|] eqn:Hr.
  - by rewrite (createTenant_existing input now c r Hr).
  - pose proof (createTenant_new input now c Hr) as Hnew. cbv zeta in Hnew.
    rewrite Hnew. clear Hnew. fold e.
    destruct (exec now _ _) as [[rows db']|err'] eqn:Hexec; simpl; [done|].
    intros _. split; [done|]. split; [by apply row_of_None|].
    split; [apply elem_of_union; right; by apply elem_of_singleton|].
    by rewrite <- !app_assoc.
Qed.

Lemma createTenant_refused_leaves_namespace_witness :
  tenants (store (after (createTenant {| CreateTenantInput.entityId := "a-b";
                                         CreateTenantInput.entityName := "Second" |})
                        20 with_a_b)) = tenants (store with_a_b) ∧
  derive_schemaName "a-b" ∈
    schemas (store (after (createTenant {| CreateTenantInput.entityId := "a-b";
                                           CreateTenantInput.entityName := "Second" |})
                          20 with_a_b)).
Proof.
  pose proof (createTenant_refused_leaves_namespace
    {| CreateTenantInput.entityId := "a-b"; CreateTenantInput.entityName := "Second" |}
    (unique_violation "tenants_schema_name_key") 20 with_a_b
    eq_refl eq_refl eq_refl) as H.
  split; apply H.
Defined.

(** The row that is newer than all others is the first that
    [ORDER BY created_at DESC] returns. *)
Lemma merge_sort_newest_first rows r :
  Forall (λ r', Row.created_at r' < Row.created_at r) rows →
  ∃ l, merge_sort newest_first (rows ++ [r]) = r :: l ∧ l ≡ₚ rows.
Proof.
  intros Holder.
  pose proof (StronglySorted_merge_sort newest_first (rows ++ [r])) as Hsorted.
  pose proof (merge_sort_Permutation newest_first (rows ++ [r])) as Hperm.
  destruct (merge_sort newest_first (rows ++ [r])) as [|x l].
  - symmetry in Hperm. apply Permutation_nil_r in Hperm.
    by destruct rows.
  - assert (x = r) as ->.
    { assert (x ∈ rows ++ [r]) as Hx by (rewrite <- Hperm; left).
      apply elem_of_app in Hx as [Hx|Hx%list_elem_of_singleton]; [|done].
      exfalso. rewrite Forall_forall in Holder. specialize (Holder x Hx).
      assert (r ∈ x :: l) as Hr
        by (rewrite Hperm; apply elem_of_app; right; by apply list_elem_of_singleton).
      apply elem_of_cons in Hr as [->|Hr]; [lia|].
      apply StronglySorted_inv in Hsorted as [_ Hall].
      rewrite Forall_forall in Hall. specialize (Hall r Hr).
      unfold newest_first in Hall. lia. }
    exists l. split; [done|].
    apply (Permutation_cons_inv (a := r)). rewrite Hperm.
    by rewrite Permutation_app_comm.
Qed.

(** X10. A tenant that [create] has just registered, at a time later than the
    creation of every other tenant, is the first [list()] returns; the rest
    of the list are the tenants that were there. *)
Theorem newest_tenant_listed_first input t now now' c :
  let e := CreateTenantInput.entityId input in
  valid_entityId e = true →
  plain (CreateTenantInput.entityName input) = true →
  ¬ registered e (store c) →
  Forall (λ r, Row.created_at r < now) (tenants (store c)) →
  returned (createTenant input) now c = Ok (Some t) →
  ∃ l, returned listTenants now' (after (createTenant input) now c) = Ok (t :: l) ∧
       l ≡ₚ toTenantData <$> tenants (store c).
Proof.
  intros e Hlen%valid_entityId_length _ Hno%row_of_None Holder Hret.
  assert (String.length e ≤ 255)%nat as Hfits by lia. clear Hlen.
  rename Hfits into Hlen.
  destruct (createTenant_new_cases input now c Hlen Hno)
    as [(err & Herr & _)|(r & Hr & Hstore & _ & _ & Hcreated & _)].
  { rewrite Herr in Hret. done. }
  rewrite Hr in Hret. simplify_eq.
  unfold returned. rewrite listTenants_run, Hstore. simpl.
  destruct (merge_sort_newest_first (tenants (store c)) r) as (l & -> & Hl).
  { done. }
  exists (toTenantData <$> l). split; [done|]. by rewrite Hl.
Qed.

Lemma newest_tenant_listed_first_witness :
  ∃ l, returned listTenants 30
         (after (createTenant {| CreateTenantInput.entityId := "beta-2";
                                 CreateTenantInput.entityName := "Beta" |}) 20 with_acme)
       = Ok ({| TenantData.id := "tenant_beta-2";
                TenantData.entityId := "beta-2";
                TenantData.entityName := "Beta";
                TenantData.schemaName := "tenant_entity_beta_2";
                TenantData.status := "active";
                TenantData.createdAt := 20;
                TenantData.updatedAt := 20 |} :: l) ∧
       l ≡ₚ toTenantData <$> tenants (store with_acme).
Proof.
  apply (newest_tenant_listed_first
           {| CreateTenantInput.entityId := "beta-2";
              CreateTenantInput.entityName := "Beta" |} _ 20 30 with_acme).
  - reflexivity.
  - reflexivity.
  - by_evaluation.
  - by_evaluation.
  - reflexivity.
Defined.

(** X11. Once [updateStatus(e, 'active')] has run for an existing tenant, a
    request whose tenant identifier is [e] is bound to it: [req.tenant] names
    the tenant and the [search_path] is its namespace followed by [public];
    the table is not touched. *)
Theorem active_tenant_is_bound e t req now now1 c :
  bindable e = true →
  tenant_namespace (TenantData.schemaName t) = true →
  returned (getTenantByEntityId e) now c = Ok (Some t) →
  carries req e → e ≠ "" →
  let c1 := after (updateTenantStatus e active) now c in
  returned (tenantMiddleware req) now1 c1 =
    Ok {| req_tenant := Some {| ReqTenant.id := TenantData.id t;
                                ReqTenant.entityId := TenantData.entityId t;
                                ReqTenant.entityName := TenantData.entityName t;
                                ReqTenant.schemaName := TenantData.schemaName t |};
          next_calls := 1;
          on_finish := [SET_search_path ["public"]] |} ∧
  search_path (store (after (tenantMiddleware req) now1 c1)) =
    [TenantData.schemaName t; "public"] ∧
  tenants (store (after (tenantMiddleware req) now1 c1)) = tenants (store c1).
Proof.
  intros _ _ Ht Hreq He c1. unfold returned in Ht.
  rewrite getTenantByEntityId_run in Ht. simpl in Ht.
  destruct (row_of e (store c)) as [r|] eqn:Hr; simplify_eq/=.
  assert (head (filter (λ x, has_entity_id e x && is_active x) (tenants (store c1)))
          = Some (set_columns None (Some "active") now r)) as Hhead.
  { apply head_filter_and; [|done].
    unfold c1, after. rewrite updateTenantStatus_run. cbv zeta. simpl.
    pose proof (row_of_update_where e (set_columns None (Some "active") now) (store c))
      as Hrow. unfold row_of in Hrow, Hr. simpl in Hrow.
    rewrite Hrow by done. by rewrite Hr. }
  unfold returned, after.
  by rewrite (tenantMiddleware_active_row req e _ now1 c1 Hreq He Hhead).
Qed.

Lemma active_tenant_is_bound_witness :
  search_path (store (after (tenantMiddleware
                               {| Request.x_tenant_id := None;
                                  Request.tenant_id := Some "acme-1" |}) 40
                            (after (updateTenantStatus "acme-1" active) 30
                               (after (updateTenantStatus "acme-1" inactive) 20 with_acme))))
  = ["tenant_entity_acme_1"; "public"].
Proof.
  refine (proj1 (proj2 (active_tenant_is_bound "acme-1"
    {| TenantData.id := "tenant_acme-1";
       TenantData.entityId := "acme-1";
       TenantData.entityName := "Acme Co";
       TenantData.schemaName := "tenant_entity_acme_1";
       TenantData.status := "inactive";
       TenantData.createdAt := 10;
       TenantData.updatedAt := 20 |}
    {| Request.x_tenant_id := None; Request.tenant_id := Some "acme-1" |}
    30 40 (after (updateTenantStatus "acme-1" inactive) 20 with_acme)
    eq_refl eq_refl eq_refl eq_refl _))).
  discriminate.
Defined.

Lemma head_filter_elem (p : Row.t → bool) rows r :
  head (filter (λ x, p x) rows) = Some r → r ∈ rows ∧ p r = true.
Proof.
  intros Hh%head_Some_elem_of. apply list_elem_of_filter in Hh as [Hp Hin].
  split; [done|]. by apply Is_true_true.
Qed.

(** X12. On a tidy table, whatever the request, the middleware returns, calls
    [next()] once and leaves the table and the namespaces alone.  It binds a tenant only when
    the table holds an active row for the identifier the request carries, and
    then [req.tenant] and the [search_path] are those of that row and the
    reset is registered; otherwise the database is untouched and nothing is
    registered. *)
Theorem tenantMiddleware_binds_only_active req now c :
  tidy (store c) →
  ∃ b, returned (tenantMiddleware req) now c = Ok b ∧
       next_calls b = 1%nat ∧
       tenants (store (after (tenantMiddleware req) now c)) = tenants (store c) ∧
       schemas (store (after (tenantMiddleware req) now c)) = schemas (store c) ∧
       match req_tenant b with
       | None =>
           store (after (tenantMiddleware req) now c) = store c ∧ on_finish b = []
       | Some t =>
           ∃ r, r ∈ tenants (store c) ∧ Row.status r = "active" ∧
                carries req (Row.entity_id r) ∧
                t = {| ReqTenant.id := Row.id r;
                       ReqTenant.entityId := Row.entity_id r;
                       ReqTenant.entityName := Row.entity_name r;
                       ReqTenant.schemaName := Row.schema_name r |} ∧
                search_path (store (after (tenantMiddleware req) now c)) =
                  [Row.schema_name r; "public"] ∧
                on_finish b = [SET_search_path ["public"]]
       end.
Proof.
  intros _. unfold returned, after.
  destruct (js_or (Request.x_tenant_id req) (Request.tenant_id req)) as [e|] eqn:Hid.
  - destruct (decide (e = "")) as [->|He].
    + exists unbound. unfold tenantMiddleware. rewrite Hid. simpl. by repeat split.
    + destruct (head (filter (λ x, has_entity_id e x && is_active x)
                        (tenants (store c)))) as [r|] eqn:Hhead.
      * rewrite (tenantMiddleware_active_row req e r now c Hid He Hhead). simpl.
        eexists. split; [done|]. do 3 (split; [done|]). simpl.
        apply head_filter_elem in Hhead as [Hin [He' Hact]%andb_true_iff].
        unfold has_entity_id in He'. apply bool_decide_eq_true in He'.
        unfold is_active in Hact. apply bool_decide_eq_true in Hact.
        exists r. unfold carries. by rewrite He'.
      * apply head_None in Hhead.
        rewrite (tenantMiddleware_no_active_row req e now c Hid Hhead).
        exists unbound. destruct (truthy (Some e)); by repeat split.
  - exists unbound. unfold tenantMiddleware. rewrite Hid. simpl. by repeat split.
Qed.

Lemma tenantMiddleware_binds_only_active_witness :
  ∃ b, returned (tenantMiddleware {| Request.x_tenant_id := Some "acme-1";
                                     Request.tenant_id := Some "beta-2" |}) 30
                with_acme_beta = Ok b ∧
       next_calls b = 1%nat ∧
       tenants (store (after (tenantMiddleware
                                {| Request.x_tenant_id := Some "acme-1";
                                   Request.tenant_id := Some "beta-2" |}) 30
                         with_acme_beta)) = tenants (store with_acme_beta).
Proof.
  destruct (tenantMiddleware_binds_only_active
              {| Request.x_tenant_id := Some "acme-1"; Request.tenant_id := Some "beta-2" |}
              30 with_acme_beta) as (b & Hb & Hnext & Hrows & _).
  - by_evaluation.
  - exists b. by repeat split.
Defined.

(** *** The routes, beyond the specification *)

Lemma admin_DELETE_run e now c :
  AdminTenant.DELETE e now c =
  match row_of e (store c) with
  | None => (Ok (reply 404 (payload_error "Tenant not found")),
             sent (SELECT_by_entity_id e) (store c) c)
  | Some r =>
      (Ok (reply 200 (payload_deleted (Row.entity_id r) (Row.entity_name r)
                        (Row.schema_name r))),
       sent (DELETE_by_entity_id e)
         (with_tenants (filter (λ r, negb (has_entity_id e r)) (tenants (store c)))
            (with_schemas (schemas (store c) ∖ {[ Row.schema_name r ]}) (store c)))
         (sent (DROP_SCHEMA (Row.schema_name r)) (store c)
            (sent (SELECT_by_entity_id e) (store c) c)))
  end.
Proof.
  unfold AdminTenant.DELETE, try_catch, bind, raw, exec, row_of; simpl.
  destruct (filter _ _); reflexivity.
Qed.

(** X13. Within the bounds (an [entityId] that can be bound, a tidy table),
    [DELETE /admin/tenants/:entityId] does to the connection what
    [deleteTenant] does, statement for statement: it answers 404 when no
    tenant matches, and otherwise 200 with the [entityId], [entityName] and
    [schemaName] of the tenant it has deleted. *)
Theorem admin_DELETE_as_deleteTenant e now c :
  bindable e = true →
  tidy (store c) →
  after (AdminTenant.DELETE e) now c = after (deleteTenant e) now c ∧
  returned (AdminTenant.DELETE e) now c =
    Ok (match returned (getTenantByEntityId e) now c with
        | Ok (Some t) =>
            reply 200 (payload_deleted (TenantData.entityId t) (TenantData.entityName t)
                         (TenantData.schemaName t))
        | _ => reply 404 (payload_error "Tenant not found")
        end) ∧
  (returned (AdminTenant.DELETE e) now c = Ok (reply 404 (payload_error "Tenant not found"))
   ↔ returned (deleteTenant e) now c = Ok false).
Proof.
  intros _ _. unfold returned, after.
  rewrite admin_DELETE_run, deleteTenant_run, getTenantByEntityId_run.
  destruct (row_of e (store c)) as [r|]; simpl; (split; [done|]); (split; [done|]);
    by split.
Qed.

Lemma admin_DELETE_as_deleteTenant_witness :
  returned (AdminTenant.DELETE "acme-1") 30 with_acme_beta
    = Ok (reply 200 (payload_deleted "acme-1" "Acme Co" "tenant_entity_acme_1")) ∧
  after (AdminTenant.DELETE "acme-1") 30 with_acme_beta
    = after (deleteTenant "acme-1") 30 with_acme_beta.
Proof.
  destruct (admin_DELETE_as_deleteTenant "acme-1" 30 with_acme_beta) as (H1 & H2 & _).
  - reflexivity.
  - by_evaluation.
  - split; [|exact H1]. rewrite H2. reflexivity.
Defined.


(** X15. [GET /tenants] answers 401 without a statement when the admin key is
    not the expected one; with the right key it answers 200 with the tenants
    [listTenants] returns, in that order, and only reads.
    [GET /admin/tenants] does the same without asking for the key. *)
Theorem GET_tenants_as_listTenants env req now c :
  (verifyAdminKey env req = false →
     Tenants.GET env req now c = (Ok (reply 401 (payload_error "Invalid admin key")), c)) ∧
  (verifyAdminKey env req = true → Tenants.GET env req now c = AdminTenants.GET now c) ∧
  after AdminTenants.GET now c = after listTenants now c ∧
  ∃ l, returned listTenants now c = Ok l ∧
       returned AdminTenants.GET now c = Ok (reply 200 (payload_tenants l)) ∧
       l ≡ₚ toTenantData <$> tenants (store c) ∧
       StronglySorted not_older l.
Proof.
  split; [|split; [|split]].
  - intros Hkey. unfold Tenants.GET. by rewrite Hkey.
  - intros Hkey. unfold Tenants.GET. by rewrite Hkey.
  - reflexivity.
  - exists (toTenantData <$> merge_sort newest_first (tenants (store c))).
    split; [reflexivity|]. split; [reflexivity|]. split.
    + by rewrite merge_sort_Permutation.
    + apply StronglySorted_fmap with (R1 := newest_first).
      * intros r1 r2 H. exact H.
      * apply StronglySorted_merge_sort; apply _.
Qed.

Lemma GET_tenants_as_listTenants_witness :
  Tenants.GET None {| PostRequest.x_admin_key := None;
                      PostRequest.entityId := None;
                      PostRequest.entityName := None |} 20 with_acme
    = (Ok (reply 401 (payload_error "Invalid admin key")), with_acme) ∧
  Tenants.GET (Some "s3cret") {| PostRequest.x_admin_key := Some "s3cret";
                                 PostRequest.entityId := None;
                                 PostRequest.entityName := None |} 20 with_acme
    = AdminTenants.GET 20 with_acme.
Proof.
  split.
  - apply (proj1 (GET_tenants_as_listTenants None _ 20 with_acme)). reflexivity.
  - apply (proj1 (proj2 (GET_tenants_as_listTenants (Some "s3cret") _ 20 with_acme))).
    reflexivity.
Defined.



(** *** PATCH, beyond the frame *)

Lemma PATCH_absent e b now c :
  row_of e (store c) = None →
  PATCH e b now c =
  (Ok (send 404 (json_error "Tenant not found")), sent (SELECT_by_entity_id e) (store c) c).
Proof.
  unfold row_of, PATCH, try_catch, bind at 1, raw at 1. intros Hr.
  change (exec now (SELECT_by_entity_id e) (store c))
    with (Ok (filter (λ r, has_entity_id e r) (tenants (store c)), store c)).
  cbv iota beta zeta.
  by destruct (filter _ (tenants (store c))) as [|r rest].
Qed.

Lemma assigned_Some v s : assigned v = Some s → v = Some s.
Proof. unfold assigned. by destruct (truthy v). Qed.

Lemma varchar_opt_fits n v :
  (∀ s, v = Some s → (String.length s ≤ n)%nat) → varchar_opt n (assigned v) = Some (assigned v).
Proof.
  intros Hfit. destruct (assigned v) as [s|] eqn:Hv; [|done]. simpl.
  apply assigned_Some in Hv. by rewrite (varchar_fits n s (Hfit s Hv)).
Qed.

Lemma PATCH_fitting e b r now c :
  row_of e (store c) = Some r →
  truthy (PatchBody.entityName b) || truthy (PatchBody.status b) = true →
  patch_fits b →
  let upd := UPDATE_tenant (assigned (PatchBody.entityName b))
                           (assigned (PatchBody.status b)) e in
  let f := set_columns (assigned (PatchBody.entityName b))
                       (assigned (PatchBody.status b)) now in
  let db' := with_tenants (update_where e f (tenants (store c))) (store c) in
  PATCH e b now c =
  (Ok (send 200 (json_tenant (toTenantData (f r)))),
   sent (SELECT_by_entity_id e) db'
     (sent upd db' (sent (SELECT_by_entity_id e) (store c) c))).
Proof.
  intros Hr Hany [Hn Hs] upd f db'.
  rewrite (PATCH_run e b now c r Hr). cbv zeta. rewrite Hany.
  unfold exec.
  rewrite (varchar_opt_fits 255 _ (λ n H, proj2 (Hn n H))),
    (varchar_opt_fits 50 _ (λ s H, proj2 (Hs s H))).
  fold f. fold db'. unfold db'. rewrite row_of_update_where by done.
  by rewrite Hr.
Qed.

(** A lookup by another [entityId] does not see an [UPDATE ... WHERE
    entity_id = e]. *)
Lemma row_of_update_where_other e e' f db :
  e' ≠ e → (∀ r, Row.entity_id (f r) = Row.entity_id r) →
  row_of e' (with_tenants (update_where e f (tenants db)) db) = row_of e' db.
Proof.
  intros Hne Hf. unfold update_where. rewrite row_of_fmap.
  - destruct (row_of e' db) as [r|] eqn:Hr; [|done]. simpl.
    apply row_of_Some in Hr as [_ Hr]. unfold has_entity_id.
    rewrite bool_decide_false; [done|congruence].
  - intros r. by destruct (has_entity_id e r).
Qed.

Lemma lookup_row_of e t now c :
  returned (getTenantByEntityId e) now c = Ok (Some t) →
  ∃ r, row_of e (store c) = Some r ∧ t = toTenantData r.
Proof.
  unfold returned. rewrite getTenantByEntityId_run. simpl.
  destruct (row_of e (store c)) as [r|]; [|done]. intros [= <-]. by exists r.
Qed.

Lemma not_absent_truthy v : ¬ absent v → truthy v = true.
Proof. rewrite absent_truthy. by destruct (truthy v). Qed.

(** X17. A PATCH of an existing tenant that supplies an [entityName] or a
    [status] (not empty, without U+0000, within the width of the column in
    bytes) answers 200 with the tenant as updated: the supplied fields,
    [updatedAt] the time of the request, the rest as stored.  A lookup
    afterwards returns that tenant, and a lookup of any other tenant returns
    what it returned before. *)
Theorem PATCH_applies_fields e b t now now1 c :
  bindable e = true →
  returned (getTenantByEntityId e) now c = Ok (Some t) →
  ¬ absent (PatchBody.entityName b) ∨ ¬ absent (PatchBody.status b) →
  patch_fits b →
  let c' := after (PATCH e b) now c in
  returned (PATCH e b) now c = Ok (send 200 (json_tenant (patched b now t))) ∧
  returned (getTenantByEntityId e) now1 c' = Ok (Some (patched b now t)) ∧
  (∀ n, PatchBody.entityName b = Some n → n ≠ "" →
        TenantData.entityName (patched b now t) = n) ∧
  (∀ s, PatchBody.status b = Some s → s ≠ "" → TenantData.status (patched b now t) = s) ∧
  (∀ e', e' ≠ e →
     returned (getTenantByEntityId e') now1 c' = returned (getTenantByEntityId e') now1 c).
Proof.
  intros _ (r & Hr & ->)%lookup_row_of Hsome Hfits c'.
  assert (truthy (PatchBody.entityName b) || truthy (PatchBody.status b) = true) as Hany.
  { destruct Hsome as [H%not_absent_truthy|H%not_absent_truthy]; rewrite H;
      [done|apply orb_true_r]. }
  pose proof (PATCH_fitting e b r now c Hr Hany Hfits) as Hrun. cbv zeta in Hrun.
  unfold c', returned, after. rewrite Hrun. simpl.
  split; [done|]. rewrite !getTenantByEntityId_run. simpl.
  split; [|split; [|split]].
  - rewrite row_of_update_where by done. by rewrite Hr.
  - intros n Hn Hne. unfold assigned, truthy. rewrite Hn.
    by rewrite bool_decide_false.
  - intros s Hs Hne. unfold assigned, truthy. rewrite Hs.
    by rewrite bool_decide_false.
  - intros e' Hne. rewrite !getTenantByEntityId_run. simpl.
    by rewrite row_of_update_where_other.
Qed.

Lemma PATCH_applies_fields_witness :
  returned (PATCH "acme-1" {| PatchBody.entityName := Some "Acme Ltd";
                              PatchBody.status := None |}) 20 with_acme
  = Ok (send 200 (json_tenant
      {| TenantData.id := "tenant_acme-1";
         TenantData.entityId := "acme-1";
         TenantData.entityName := "Acme Ltd";
         TenantData.schemaName := "tenant_entity_acme_1";
         TenantData.status := "active";
         TenantData.createdAt := 10;
         TenantData.updatedAt := 20 |})).
Proof.
  refine (proj1 (PATCH_applies_fields "acme-1"
    {| PatchBody.entityName := Some "Acme Ltd"; PatchBody.status := None |}
    {| TenantData.id := "tenant_acme-1";
       TenantData.entityId := "acme-1";
       TenantData.entityName := "Acme Co";
       TenantData.schemaName := "tenant_entity_acme_1";
       TenantData.status := "active";
       TenantData.createdAt := 10;
       TenantData.updatedAt := 10 |} 20 30 with_acme eq_refl eq_refl _ _)).
  - left. intros [H|H]; discriminate H.
  - split; intros x [= <-]. split; [reflexivity|vm_compute; lia].
Defined.


(** X19. What a PATCH refuses, for an [entityId] that can be bound.  When no
    tenant has it the answer is 404 after the one lookup.  For an existing
    tenant and an ASCII value too long for its column ([entityName]: 255
    characters, [status]: 50; trailing spaces beyond that are cut, not
    refused) the answer is 500 with the error of the database.  Either way the
    database is as it was: in particular a [status] that fits is not applied
    when the [entityName] sent with it does not. *)
Theorem PATCH_refusals e b now c :
  bindable e = true →
  (returned (getTenantByEntityId e) now c = Ok None →
     returned (PATCH e b) now c = Ok (send 404 (json_error "Tenant not found")) ∧
     after (PATCH e b) now c = after (getTenantByEntityId e) now c) ∧
  (registered e (store c) →
     (∀ n, PatchBody.entityName b = Some n → plain n = true → varchar 255 n = None →
        (∀ s, PatchBody.status b = Some s → bindable s = true) →
        returned (PATCH e b) now c = Ok (send 500 (json_exception (value_too_long 255))) ∧
        store (after (PATCH e b) now c) = store c) ∧
     (∀ s, PatchBody.status b = Some s → plain s = true → varchar 50 s = None →
        patch_fits {| PatchBody.entityName := PatchBody.entityName b;
                      PatchBody.status := None |} →
        returned (PATCH e b) now c = Ok (send 500 (json_exception (value_too_long 50))) ∧
        store (after (PATCH e b) now c) = store c)).
Proof.
  intros _. split.
  - unfold returned, after. rewrite getTenantByEntityId_run. simpl.
    destruct (row_of e (store c)) as [r|] eqn:Hr; [done|]. intros _.
    by rewrite (PATCH_absent e b now c Hr).
  - intros [r Hr]%registered_row_of. split.
    + intros n Hn _ Hlong _.
      assert (n ≠ "") as Hne
        by (intros ->; by rewrite varchar_fits in Hlong by (simpl; lia)).
      assert (truthy (PatchBody.entityName b) = true) as Hnt
        by (unfold truthy; rewrite Hn; by rewrite bool_decide_false).
      assert (assigned (PatchBody.entityName b) = Some n) as Hass
        by (unfold assigned; by rewrite Hnt).
      unfold returned, after. rewrite (PATCH_run e b now c r Hr). cbv zeta.
      rewrite Hnt, Hass. unfold exec, varchar_opt. by rewrite Hlong.
    + intros s Hs _ Hlong [Hfit _]. simpl in Hfit.
      assert (s ≠ "") as Hne
        by (intros ->; by rewrite varchar_fits in Hlong by (simpl; lia)).
      assert (truthy (PatchBody.status b) = true) as Hst
        by (unfold truthy; rewrite Hs; by rewrite bool_decide_false).
      assert (assigned (PatchBody.status b) = Some s) as Hass
        by (unfold assigned; by rewrite Hst).
      unfold returned, after. rewrite (PATCH_run e b now c r Hr). cbv zeta.
      rewrite Hst, orb_true_r. unfold exec.
      rewrite (varchar_opt_fits 255 _ (λ n H, proj2 (Hfit n H))), Hass.
      unfold varchar_opt. by rewrite Hlong.
Qed.

Lemma PATCH_refusals_witness :
  returned (PATCH "nobody" {| PatchBody.entityName := Some "No One";
                              PatchBody.status := None |}) 20 with_acme
    = Ok (send 404 (json_error "Tenant not found")) ∧
  returned (PATCH "acme-1" {| PatchBody.entityName := Some (replicate_char 256 "x");
                              PatchBody.status := Some "inactive" |}) 20 with_acme
    = Ok (send 500 (json_exception (value_too_long 255))) ∧
  store (after (PATCH "acme-1" {| PatchBody.entityName := Some (replicate_char 256 "x");
                                  PatchBody.status := Some "inactive" |}) 20 with_acme)
    = store with_acme.
Proof.
  split.
  - apply (proj1 (PATCH_refusals "nobody" _ 20 with_acme eq_refl)). reflexivity.
  - refine (proj1 (proj2 (PATCH_refusals "acme-1"
      {| PatchBody.entityName := Some (replicate_char 256 "x");
         PatchBody.status := Some "inactive" |} 20 with_acme eq_refl) _)
      (replicate_char 256 "x") eq_refl _ _ _).
    + apply Exists_cons_hd. reflexivity.
    + vm_compute. reflexivity.
    + vm_compute. reflexivity.
    + intros s [= <-]. reflexivity.
Defined.

(** After an [UPDATE] that sets the status of the rows of [e] to [s], the rows
    of [e] that are active are all of them or none. *)
Lemma filter_active_after_status e n s now rows :
  filter (λ r, has_entity_id e r && is_active r)
         (update_where e (set_columns n (Some s) now) rows)
  = if bool_decide (s = "active")
    then filter (λ r, has_entity_id e r) (update_where e (set_columns n (Some s) now) rows)
    else [].
Proof.
  induction rows as [|x rows IH]; [by destruct (bool_decide _)|].
  unfold update_where in *. rewrite fmap_cons, !filter_cons, IH.
  destruct (has_entity_id e x) eqn:Hx.
  - assert (has_entity_id e (set_columns n (Some s) now x) = true) as -> by exact Hx.
    assert (is_active (set_columns n (Some s) now x) = bool_decide (s = "active")) as ->
      by reflexivity.
    by destruct (bool_decide (s = "active")).
  - rewrite Hx. by destruct (bool_decide (s = "active")).
Qed.

(** X20. The status a PATCH writes decides whether the middleware binds the
    tenant.  After a PATCH of an existing tenant with a status [s] (not empty,
    at most 50 characters), a request that carries the tenant's [entityId] is
    bound to the tenant, as patched, when [s] is ['active']; for any other [s]
    it is handled as a request of no tenant: [req.tenant] stays unset and the
    database is left alone. *)
Theorem PATCH_status_decides_binding e b s t req now now1 c :
  bindable e = true →
  tenant_namespace (TenantData.schemaName t) = true →
  returned (getTenantByEntityId e) now c = Ok (Some t) →
  e ≠ "" → carries req e →
  PatchBody.status b = Some s → s ≠ "" → patch_fits b →
  let c1 := after (PATCH e b) now c in
  (s = "active" →
     returned (tenantMiddleware req) now1 c1 =
       Ok {| req_tenant :=
               Some {| ReqTenant.id := TenantData.id t;
                       ReqTenant.entityId := TenantData.entityId t;
                       ReqTenant.entityName := TenantData.entityName (patched b now t);
                       ReqTenant.schemaName := TenantData.schemaName t |};
             next_calls := 1;
             on_finish := [SET_search_path ["public"]] |} ∧
     search_path (store (after (tenantMiddleware req) now1 c1)) =
       [TenantData.schemaName t; "public"]) ∧
  (s ≠ "active" →
     returned (tenantMiddleware req) now1 c1 = Ok unbound ∧
     store (after (tenantMiddleware req) now1 c1) = store c1).
Proof.
  intros _ _ (r & Hr & ->)%lookup_row_of He Hreq Hs Hne Hfits c1.
  assert (truthy (PatchBody.status b) = true) as Hst
    by (unfold truthy; rewrite Hs; by rewrite bool_decide_false).
  assert (truthy (PatchBody.entityName b) || truthy (PatchBody.status b) = true) as Hany
    by (rewrite Hst; apply orb_true_r).
  pose proof (PATCH_fitting e b r now c Hr Hany Hfits) as Hrun. cbv zeta in Hrun.
  assert (assigned (PatchBody.status b) = Some s) as Hass
    by (unfold assigned; by rewrite Hst).
  rewrite Hass in Hrun.
  set (f := set_columns (assigned (PatchBody.entityName b)) (Some s) now) in *.
  assert (store c1 = with_tenants (update_where e f (tenants (store c))) (store c))
    as Hstore by (unfold c1, after; by rewrite Hrun).
  assert (filter (λ x, has_entity_id e x && is_active x) (tenants (store c1))
          = if bool_decide (s = "active")
            then filter (λ x, has_entity_id e x) (tenants (store c1)) else []) as Hact.
  { rewrite Hstore. simpl. apply filter_active_after_status. }
  split.
  - intros Hactive. rewrite bool_decide_true in Hact by done.
    assert (head (filter (λ x, has_entity_id e x && is_active x) (tenants (store c1)))
            = Some (f r)) as Hhead.
    { rewrite Hact, Hstore.
      pose proof (row_of_update_where e f (store c)) as Hrow. unfold row_of in Hrow, Hr.
      simpl in *. rewrite Hrow by done. by rewrite Hr. }
    unfold returned, after.
    rewrite (tenantMiddleware_active_row req e _ now1 c1 Hreq He Hhead). simpl.
    by split.
  - intros Hother. rewrite bool_decide_false in Hact by done.
    unfold returned, after.
    rewrite (tenantMiddleware_no_active_row req e now1 c1 Hreq Hact).
    split; [done|]. by destruct (truthy (Some e)).
Qed.

Lemma PATCH_status_decides_binding_witness :
  returned (tenantMiddleware {| Request.x_tenant_id := Some "acme-1";
                                Request.tenant_id := None |}) 30
           (after (PATCH "acme-1" {| PatchBody.entityName := None;
                                     PatchBody.status := Some "suspended" |}) 20 with_acme)
  = Ok unbound.
Proof.
  refine (proj1 (proj2 (PATCH_status_decides_binding "acme-1"
    {| PatchBody.entityName := None; PatchBody.status := Some "suspended" |}
    "suspended"
    {| TenantData.id := "tenant_acme-1";
       TenantData.entityId := "acme-1";
       TenantData.entityName := "Acme Co";
       TenantData.schemaName := "tenant_entity_acme_1";
       TenantData.status := "active";
       TenantData.createdAt := 10;
       TenantData.updatedAt := 10 |}
    {| Request.x_tenant_id := Some "acme-1"; Request.tenant_id := None |}
    20 30 with_acme eq_refl eq_refl eq_refl _ eq_refl eq_refl _ _) _)).
  - discriminate.
  - discriminate.
  - split; intros x [= <-]. split; [reflexivity|vm_compute; lia].
  - discriminate.
Defined.

(** *** Single sign-on *)

Lemma truthy_Some v : truthy v = true → ∃ s, v = Some s ∧ s ≠ "".
Proof.
  destruct v as [s|]; [|done]. simpl. intros H. exists s. split; [done|].
  intros ->. by rewrite bool_decide_true in H.
Qed.

Lemma sso_complete_truthy payload :
  sso_complete payload →
  negb (truthy (BeezySSoPayload.entityId payload))
  || negb (truthy (BeezySSoPayload.userId payload))
  || negb (truthy (BeezySSoPayload.email payload))
  || negb (truthy (BeezySSoPayload.signature payload)) = false.
Proof.
  intros (He & Hu & Hm & Hs).
  by rewrite (not_absent_truthy _ He), (not_absent_truthy _ Hu),
    (not_absent_truthy _ Hm), (not_absent_truthy _ Hs).
Qed.

(** An accepted login, statement by statement. *)
Lemma sso_POST_run hmac env NODE_ENV date_now payload now c :
  sso_accepted hmac env date_now payload →
  let e := default "" (BeezySSoPayload.entityId payload) in
  let s := derive_schemaName e in
  let ins := INSERT_tenant false (derive_id e) e (sso_entity_name payload) s in
  let c0 := sent (SELECT_by_entity_id e) (store c) (sent CREATE_TABLE_tenants (store c) c) in
  let c1 := sent (CREATE_SCHEMA s) (with_schemas (schemas (store c) ∪ {[ s ]}) (store c)) c0 in
  BeezySso.POST hmac env NODE_ENV date_now payload now c =
  match row_of e (store c) with
  | Some row =>
      (Ok (respond 200 (sso_cookies NODE_ENV e (Row.schema_name row))
             (sso_success
                {| SsoTenant.id := Row.id row;
                   SsoTenant.entityId := Row.entity_id row;
                   SsoTenant.entityName := Some (Row.entity_name row);
                   SsoTenant.schemaName := Row.schema_name row |}
                (sso_user payload) "/app")),
       c0)
  | None =>
      match exec now ins (store c1) with
      | Ok (_, db') =>
          (Ok (respond 200 (sso_cookies NODE_ENV e s)
                 (sso_success
                    {| SsoTenant.id := derive_id e;
                       SsoTenant.entityId := e;
                       SsoTenant.entityName := BeezySSoPayload.entityName payload;
                       SsoTenant.schemaName := s |}
                    (sso_user payload) "/app")),
           sent ins db' c1)
      | Throw err => (Ok (respond 500 [] (sso_exception err)), sent ins (store c1) c1)
      end
  end.
Proof.
  intros (Hc & Hfresh & Hsig) e s ins c0 c1.
  unfold BeezySso.POST. cbv zeta.
  rewrite (sso_complete_truthy payload Hc), Hfresh.
  unfold sso_secret in Hsig. rewrite Hsig.
  unfold try_catch, bind at 1, raw at 1.
  change (exec now CREATE_TABLE_tenants (store c)) with (Ok (@nil Row.t, store c)).
  cbv iota beta. unfold bind at 1. unfold bind at 1. unfold raw at 1.
  fold e.
  change (exec now (SELECT_by_entity_id e) (store (sent CREATE_TABLE_tenants (store c) c)))
    with (Ok (filter (λ r, has_entity_id e r) (tenants (store c)), store c)).
  cbv iota beta. unfold row_of.
  destruct (filter (λ r, has_entity_id e r) (tenants (store c))) as [|row rest]; simpl.
  - unfold bind, raw. simpl. fold s. fold c0. fold c1.
    change (default "" (js_or (BeezySSoPayload.entityName payload)
                          (Some ("Entity " +:+ e))))
      with (sso_entity_name payload).
    fold ins.
    by destruct (exec now ins _) as [[rows db']|err].
  - done.
Qed.

Lemma sso_POST_expired hmac env NODE_ENV date_now payload t now c :
  sso_complete payload →
  BeezySSoPayload.timestamp payload = Some t → 300000 < Z.abs (date_now - t) →
  BeezySso.POST hmac env NODE_ENV date_now payload now c =
  (Ok (respond 401 [] (sso_error "Token expired")), c).
Proof.
  intros Hc Ht Hold. unfold BeezySso.POST. cbv zeta.
  rewrite (sso_complete_truthy payload Hc), Ht. simpl.
  rewrite bool_decide_true; [done|lia].
Qed.

(** X21. What [POST /auth/beezy-sso] turns away, in the order of its checks:
    400 when [entityId], [userId], [email] or [signature] is missing or empty;
    401 when the [timestamp] is more than five minutes from the server's
    clock, behind or ahead; 500 when the signature has not the length of the
    expected one (the comparison throws); 401 when it has the length and
    differs.  None of these sets a cookie or sends a statement. *)
Theorem sso_POST_rejects hmac env NODE_ENV date_now payload now c :
  let run := BeezySso.POST hmac env NODE_ENV date_now payload now c in
  let checked := BeezySso.verifySignature hmac payload
                   (default "" (BeezySSoPayload.signature payload)) (sso_secret env) in
  (absent (BeezySSoPayload.entityId payload) ∨ absent (BeezySSoPayload.userId payload) ∨
   absent (BeezySSoPayload.email payload) ∨ absent (BeezySSoPayload.signature payload) →
     run = (Ok (respond 400 [] (sso_error "Missing required fields")), c)) ∧
  (sso_complete payload →
     (∀ t, BeezySSoPayload.timestamp payload = Some t → 300000 < Z.abs (date_now - t) →
        run = (Ok (respond 401 [] (sso_error "Token expired")), c)) ∧
     (expired date_now (BeezySSoPayload.timestamp payload) = false →
        (checked = None → run = (Ok (respond 500 [] sso_range_error), c)) ∧
        (checked = Some false →
           run = (Ok (respond 401 [] (sso_error "Invalid signature")), c)))).
Proof.
  intros run checked. subst run. split.
  - intros Habsent. unfold BeezySso.POST. cbv zeta.
    assert (negb (truthy (BeezySSoPayload.entityId payload))
            || negb (truthy (BeezySSoPayload.userId payload))
            || negb (truthy (BeezySSoPayload.email payload))
            || negb (truthy (BeezySSoPayload.signature payload)) = true) as ->; [|done].
    destruct Habsent as [H|[H|[H|H]]]; apply absent_truthy in H; rewrite H; simpl;
      rewrite ?orb_true_r; done.
  - intros Hc. split.
    + intros t Ht Hold. by apply (sso_POST_expired _ _ _ _ _ t).
    + intros Hfresh. unfold checked, sso_secret.
      split; intros Hsig; unfold BeezySso.POST; cbv zeta;
        by rewrite (sso_complete_truthy payload Hc), Hfresh, Hsig.
Qed.

Lemma sso_POST_rejects_witness :
  BeezySso.POST (λ secret message, secret +:+ "/" +:+ message) None None 1000000
    {| BeezySSoPayload.entityId := Some "acme-1";
       BeezySSoPayload.entityName := Some "Acme Co";
       BeezySSoPayload.userId := Some "u1";
       BeezySSoPayload.email := None;
       BeezySSoPayload.role := Some "admin";
       BeezySSoPayload.timestamp := Some 1000000;
       BeezySSoPayload.signature := Some "beezy-sso-secret/acme-1:u1:1000000" |} 10 fresh
    = (Ok (respond 400 [] (sso_error "Missing required fields")), fresh) ∧
  BeezySso.POST (λ secret message, secret +:+ "/" +:+ message) None None 1000000
    {| BeezySSoPayload.entityId := Some "acme-1";
       BeezySSoPayload.entityName := Some "Acme Co";
       BeezySSoPayload.userId := Some "u1";
       BeezySSoPayload.email := Some "u1@acme.example";
       BeezySSoPayload.role := Some "admin";
       BeezySSoPayload.timestamp := Some 1000000;
       BeezySSoPayload.signature := Some "forged" |} 10 fresh
    = (Ok (respond 500 [] sso_range_error), fresh).
Proof.
  split.
  - apply (proj1 (sso_POST_rejects _ None None 1000000 _ 10 fresh)).
    right. right. left. by left.
  - refine (proj1 (proj2 (proj2 (sso_POST_rejects _ None None 1000000 _ 10 fresh) _) _) _).
    + repeat split; intros [H|H]; discriminate H.
    + reflexivity.
    + reflexivity.
Defined.

(** X22. A payload with its required fields and the expected signature is
    answered "Token expired" exactly when it carries a [timestamp] more than
    five minutes from the server's clock.  A payload signed without a
    [timestamp] is accepted at any time. *)
Theorem sso_POST_expired_iff hmac env NODE_ENV date_now payload now c :
  sso_complete payload →
  BeezySso.verifySignature hmac payload
    (default "" (BeezySSoPayload.signature payload)) (sso_secret env) = Some true →
  (returned (BeezySso.POST hmac env NODE_ENV date_now payload) now c
     = Ok (respond 401 [] (sso_error "Token expired"))
   ↔ ∃ t, BeezySSoPayload.timestamp payload = Some t ∧ 300000 < Z.abs (date_now - t)) ∧
  (BeezySSoPayload.timestamp payload = None → sso_accepted hmac env date_now payload).
Proof.
  intros Hc Hsig. split; [split|].
  - intros Hret.
    destruct (expired date_now (BeezySSoPayload.timestamp payload)) eqn:Hexp.
    + unfold expired in Hexp.
      destruct (BeezySSoPayload.timestamp payload) as [t|]; [|done].
      exists t. split; [done|]. apply bool_decide_eq_true_1 in Hexp. lia.
    + exfalso. unfold returned in Hret.
      pose proof (sso_POST_run hmac env NODE_ENV date_now payload now c
                    (conj Hc (conj Hexp Hsig))) as Hrun. cbv zeta in Hrun.
      rewrite Hrun in Hret. clear Hrun.
      destruct (row_of _ (store c)); [done|].
      by destruct (exec now _ _) as [[rows db']|err].
  - intros (t & Ht & Hold). unfold returned.
    by rewrite (sso_POST_expired hmac env NODE_ENV date_now payload t now c Hc Ht Hold).
  - intros Hnone. split; [done|]. split; [|done]. by rewrite Hnone.
Qed.

Lemma sso_POST_expired_iff_witness :
  sso_accepted (λ secret message, secret +:+ "/" +:+ message) None 1000000
    {| BeezySSoPayload.entityId := Some "acme-1";
       BeezySSoPayload.entityName := Some "Acme Co";
       BeezySSoPayload.userId := Some "u1";
       BeezySSoPayload.email := Some "u1@acme.example";
       BeezySSoPayload.role := Some "admin";
       BeezySSoPayload.timestamp := None;
       BeezySSoPayload.signature := Some "beezy-sso-secret/acme-1:u1:undefined" |}.
Proof.
  refine (proj2 (sso_POST_expired_iff _ None None 1000000
    {| BeezySSoPayload.entityId := Some "acme-1";
       BeezySSoPayload.entityName := Some "Acme Co";
       BeezySSoPayload.userId := Some "u1";
       BeezySSoPayload.email := Some "u1@acme.example";
       BeezySSoPayload.role := Some "admin";
       BeezySSoPayload.timestamp := None;
       BeezySSoPayload.signature := Some "beezy-sso-secret/acme-1:u1:undefined" |}
    10 fresh _ _) eq_refl).
  - repeat split; intros [H|H]; discriminate H.
  - reflexivity.
Defined.



Lemma filter_and_absent e (q : Row.t → bool) rows :
  Forall (λ r, Row.entity_id r ≠ e) rows →
  filter (λ x, has_entity_id e x && q x) rows = [].
Proof.
  induction 1 as [|x rows Hx _ IH]; [done|]. rewrite filter_cons.
  assert (has_entity_id e x = false) as -> by (by apply bool_decide_eq_false_2).
  done.
Qed.

(** With [entity_id] unique, no row of [e] is active when the one a lookup
    finds is not. *)
Lemma unique_entity_id_inactive e r rows :
  NoDup (Row.entity_id <$> rows) →
  head (filter (λ x, has_entity_id e x) rows) = Some r →
  is_active r = false →
  filter (λ x, has_entity_id e x && is_active x) rows = [].
Proof.
  induction rows as [|x rows IH]; [done|].
  rewrite fmap_cons, NoDup_cons, !filter_cons. intros [Hx Hnd].
  destruct (has_entity_id e x) eqn:Hex; simpl.
  - intros [= ->] Hr. rewrite Hr. simpl.
    apply filter_and_absent, Forall_forall. intros y Hy Heq.
    apply Hx. apply bool_decide_eq_true_1 in Hex. rewrite Hex, <- Heq.
    by apply list_elem_of_fmap_2.
  - by apply IH.
Qed.

(** X24. An accepted login of an [entityId] that has a tenant changes nothing
    in the database, whatever the tenant's status: it answers 200 with the
    stored tenant and the user of the payload, and sets [tenant_id] to the
    [entityId] and [tenant_schema] to the stored [schemaName].  A request that
    brings the [tenant_id] cookie back is then bound to the tenant when its
    status is ['active'], and to none when it is not.  This within the
    bounds: the [entityId] can be bound and the stored [schemaName] is the
    name of a tenant's namespace. *)
Theorem sso_login_then_request hmac env NODE_ENV date_now payload r now now1 c :
  sso_accepted hmac env date_now payload →
  let e := default "" (BeezySSoPayload.entityId payload) in
  bindable e = true →
  tenant_namespace (Row.schema_name r) = true →
  unique_keys (store c) →
  row_of e (store c) = Some r →
  let login := BeezySso.POST hmac env NODE_ENV date_now payload in
  let req := {| Request.x_tenant_id := None; Request.tenant_id := Some e |} in
  store (after login now c) = store c ∧
  returned login now c =
    Ok (respond 200 (sso_cookies NODE_ENV e (Row.schema_name r))
          (sso_success
             {| SsoTenant.id := Row.id r;
                SsoTenant.entityId := e;
                SsoTenant.entityName := Some (Row.entity_name r);
                SsoTenant.schemaName := Row.schema_name r |}
             (sso_user payload) "/app")) ∧
  (Row.status r = "active" →
     returned (tenantMiddleware req) now1 (after login now c) =
       Ok {| req_tenant := Some {| ReqTenant.id := Row.id r;
                                   ReqTenant.entityId := e;
                                   ReqTenant.entityName := Row.entity_name r;
                                   ReqTenant.schemaName := Row.schema_name r |};
             next_calls := 1;
             on_finish := [SET_search_path ["public"]] |} ∧
     search_path (store (after (tenantMiddleware req) now1 (after login now c))) =
       [Row.schema_name r; "public"]) ∧
  (Row.status r ≠ "active" →
     returned (tenantMiddleware req) now1 (after login now c) = Ok unbound ∧
     store (after (tenantMiddleware req) now1 (after login now c)) = store c).
Proof.
  intros Hacc e _ _ Hkeys Hr login req.
  pose proof (sso_POST_run hmac env NODE_ENV date_now payload now c Hacc) as Hrun.
  cbv zeta in Hrun. fold e in Hrun. rewrite Hr in Hrun.
  destruct (row_of_Some e (store c) r Hr) as [_ Hre].
  assert (e ≠ "") as He.
  { destruct Hacc as ((Hid & _) & _). apply not_absent_truthy, truthy_Some in Hid
      as (s & Hs & Hne). unfold e. by rewrite Hs. }
  assert (carries req e) as Hreq by reflexivity.
  unfold login, returned, after. rewrite Hrun. simpl. rewrite Hre.
  split; [done|]. split; [done|]. split.
  - intros Hactive.
    set (c' := sent _ _ _).
    assert (head (filter (λ x, has_entity_id e x && is_active x) (tenants (store c')))
            = Some r) as Hhead.
    { apply head_filter_and; [exact Hr|]. unfold is_active. by rewrite bool_decide_true. }
    rewrite (tenantMiddleware_active_row req e r now1 c' Hreq He Hhead). simpl.
    by rewrite Hre.
  - intros Hother.
    set (c' := sent _ _ _).
    assert (filter (λ x, has_entity_id e x && is_active x) (tenants (store c')) = [])
      as Hnone.
    { apply (unique_entity_id_inactive e r); [apply Hkeys|exact Hr|].
      unfold is_active. by rewrite bool_decide_false. }
    rewrite (tenantMiddleware_no_active_row req e now1 c' Hreq Hnone).
    split; [done|]. by destruct (truthy (Some e)).
Qed.

Lemma sso_login_then_request_witness :
  store (after (BeezySso.POST (λ secret message, secret +:+ "/" +:+ message) None None 1000000
                  {| BeezySSoPayload.entityId := Some "acme-1";
                     BeezySSoPayload.entityName := None;
                     BeezySSoPayload.userId := Some "u1";
                     BeezySSoPayload.email := Some "u1@acme.example";
                     BeezySSoPayload.role := Some "member";
                     BeezySSoPayload.timestamp := Some 1000000;
                     BeezySSoPayload.signature :=
                       Some "beezy-sso-secret/acme-1:u1:1000000" |}) 20 with_acme)
  = store with_acme.
Proof.
  refine (proj1 (sso_login_then_request _ None None 1000000
    {| BeezySSoPayload.entityId := Some "acme-1";
       BeezySSoPayload.entityName := None;
       BeezySSoPayload.userId := Some "u1";
       BeezySSoPayload.email := Some "u1@acme.example";
       BeezySSoPayload.role := Some "member";
       BeezySSoPayload.timestamp := Some 1000000;
       BeezySSoPayload.signature := Some "beezy-sso-secret/acme-1:u1:1000000" |}
    {| Row.id := "tenant_acme-1"; Row.entity_id := "acme-1"; Row.entity_name := "Acme Co";
       Row.schema_name := "tenant_entity_acme_1"; Row.status := "active";
       Row.created_at := 10; Row.updated_at := 10 |}
    20 30 with_acme _ eq_refl eq_refl _ eq_refl)).
  - split; [|split; reflexivity]. repeat split; intros [H|H]; discriminate H.
  - repeat split; apply NoDup_singleton.
Defined.

(** X25. Both checks of the signature accept exactly the HMAC of
    [entityId:userId:timestamp] under the secret.  They part on a signature of
    another length: the check of [POST /auth/beezy-sso] throws, the check of
    [GET /auth/beezy-sso-redirect] returns [false]; wherever the first
    returns, the second returns the same. *)
Theorem verifySignature_accepts_exactly hmac payload e u signature secret :
  BeezySSoPayload.entityId payload = Some e →
  BeezySSoPayload.userId payload = Some u →
  let timestamp := BeezySSoPayload.timestamp payload in
  let expected := hmac secret (e +:+ ":" +:+ u +:+ ":" +:+ template_number timestamp) in
  (BeezySso.verifySignature hmac payload signature secret = Some true
     ↔ signature = expected) ∧
  (BeezySso.verifySignature hmac payload signature secret = None
     ↔ String.length signature ≠ String.length expected) ∧
  (BeezySsoRedirect.verifySignature hmac e u timestamp signature secret = true
     ↔ signature = expected) ∧
  (∀ equal, BeezySso.verifySignature hmac payload signature secret = Some equal →
     BeezySsoRedirect.verifySignature hmac e u timestamp signature secret = equal).
Proof.
  intros He Hu timestamp expected.
  unfold BeezySso.verifySignature, BeezySsoRedirect.verifySignature. cbv zeta.
  rewrite He, Hu. simpl template_string. fold timestamp. fold expected.
  unfold timingSafeEqual.
  destruct (decide (String.length signature = String.length expected)) as [Hlen|Hlen].
  - rewrite (bool_decide_true _ Hlen).
    destruct (decide (signature = expected)) as [Heq|Hne].
    + rewrite (bool_decide_true _ Heq). intuition congruence.
    + rewrite (bool_decide_false _ Hne). intuition congruence.
  - rewrite (bool_decide_false _ Hlen).
    assert (signature ≠ expected) as Hne by (intros ->; done).
    intuition congruence.
Qed.

Lemma verifySignature_accepts_exactly_witness :
  BeezySsoRedirect.verifySignature (λ secret message, secret +:+ "/" +:+ message)
    "acme-1" "u1" (Some 1000000) "s3cret/acme-1:u1:1000000" "s3cret" = true.
Proof.
  refine (proj2 (proj1 (proj2 (proj2 (verifySignature_accepts_exactly _
    {| BeezySSoPayload.entityId := Some "acme-1";
       BeezySSoPayload.entityName := None;
       BeezySSoPayload.userId := Some "u1";
       BeezySSoPayload.email := None;
       BeezySSoPayload.role := None;
       BeezySSoPayload.timestamp := Some 1000000;
       BeezySSoPayload.signature := None |}
    "acme-1" "u1" "s3cret/acme-1:u1:1000000" "s3cret" eq_refl eq_refl)))) _).
  reflexivity.
Defined.
